(** * Notes application backend (backend/main.py)

    A shallow embedding of the request handlers of the FastAPI notes
    service and of the two tables they work on, followed by the
    properties of the handlers.

    Conventions.
    - A Python [str] is the [string] of its UTF-8 bytes; [len] counts
      its characters, not its bytes.
    - A [datetime], an integer column and an [int] path parameter are
      [Z].  A path parameter can be any integer; the SQLite driver binds
      those of the signed 64-bit range only.
    - A table is the list of its rows in rowid order.  [first()] is the
      first matching row, [all()] keeps every matching row in order.
    - The collaborators that are not part of main.py (passlib's context,
      the AuthJWT object of a request, pydantic's [EmailStr]) are opaque:
      each is a record or a function that the handlers are handed, and
      nothing is assumed about them.  The token service of the
      specification is modelled on its own in [TokenService]. *)

From Stdlib Require Import List String ZArith Lia Bool.
From Stdlib Require HexString.
Import ListNotations.

#[local] Open Scope string_scope.
#[local] Open Scope Z_scope.

Definition datetime := Z.

(** ** Models (SQLAlchemy declarative classes) *)

(** [class User(Base)], table "users". *)
Module User.
Record t : Type := Build
  { id : Z;
    email : string;
    password_hash : string;
    created_at : datetime }.
End User.

(** [class NoteDB(Base)], table "notes". *)
Module NoteDB.
Record t : Type := Build
  { id : Z;
    title : string;
    content : string;
    user_id : Z;
    created_at : datetime;
    updated_at : datetime }.
End NoteDB.

(** What a [Session] of [SessionLocal] sees: the two tables of notes.db. *)
Record Session : Type := mkSession
  { users : list User.t;
    notes : list NoteDB.t }.

(** [Base.metadata.create_all] on a fresh file. *)
Definition empty_db : Session := {| users := []; notes := [] |}.

(** ** Exceptions and the handler monad *)

Inductive Raised : Type :=
| HTTPException (status_code : Z) (detail : string)
| AuthJWTException (status_code : Z) (message : string)
| RequestValidationError
| IntegrityError
| AttributeError (message : string)
| OverflowError (message : string)
| PasswordValueError.

(** A handler reads and writes the session and either returns or raises.
    Every write of main.py is committed on the line after it, so the
    session a raise leaves behind is the committed one. *)
Definition M (A : Type) : Type := Session -> (Raised + A) * Session.

Definition ret {A} (a : A) : M A := fun db => (inr a, db).

Definition raise {A} (e : Raised) : M A := fun db => (inl e, db).

Definition bind {A B} (m : M A) (k : A -> M B) : M B :=
  fun db =>
    match m db with
    | (inl e, db') => (inl e, db')
    | (inr a, db') => k a db'
    end.

Notation "x <- m ;; k" := (bind m (fun x => k))
  (at level 61, m at next level, right associativity).
Notation "m ;;; k" := (bind m (fun _ => k))
  (at level 61, right associativity).

(** The status line the framework answers with.  [authjwt_exception_handler]
    re-raises an [AuthJWTException] as an [HTTPException] of the same
    status; an exception no handler is registered for is a 500. *)
Definition authjwt_exception_handler (exc : Raised) : Raised :=
  match exc with
  | AuthJWTException status_code message => HTTPException status_code message
  | other => other
  end.

Definition http_status {A} (r : Raised + A) : Z :=
  match r with
  | inr _ => 200
  | inl exc =>
      match authjwt_exception_handler exc with
      | HTTPException status_code _ => status_code
      | RequestValidationError => 422
      | _ => 500
      end
  end.

(** ** Collaborators *)

(** [pwd_ctx = CryptContext(schemes=["bcrypt"])].  [hash] draws a salt,
    which is made an argument here.  It returns the hash, or [None]
    when the context refuses the password and raises (passlib does for
    a password that holds a NUL byte). *)
Module CryptContext.
Record t : Type := Build
  { hash : string -> string -> option string;
    verify : string -> string -> bool }.
End CryptContext.

(** The [Authorize] object of one request, as far as main.py looks at
    it: which exception [jwt_required()] raises, if any, the subject of
    the token, and the token [create_access_token] signs. *)
Module AuthJWT.
Record t : Type := Build
  { jwt_required : option (Z * string);
    get_jwt_subject : string;
    create_access_token : string -> string }.
End AuthJWT.

(** [Authorize: AuthJWT = Depends()].  The framework calls the
    constructor of [AuthJWT] on the request before it looks at the body.
    The constructor reads the Authorization header: without one, or
    with one of the form "Bearer <token>", it returns the object; on any
    other header it raises [InvalidHeaderError], an [AuthJWTException]
    of status 422. *)
Inductive Depends_AuthJWT : Type :=
| Built (Authorize : AuthJWT.t)
| InvalidHeaderError (message : string).

Coercion Built : AuthJWT.t >-> Depends_AuthJWT.

(** ** Pydantic schemas *)

Module UserCreate.
Record t : Type := Build
  { email : string;
    password : string }.
End UserCreate.

Module UserOut.
Record t : Type := Build
  { id : Z;
    email : string;
    created_at : datetime }.

(** [orm_mode = True]: the declared fields are read off the row. *)
Definition from_orm (u : User.t) : t :=
  {| id := User.id u;
     email := User.email u;
     created_at := User.created_at u |}.
End UserOut.

Module NoteIn.
Record t : Type := Build
  { title : string;
    content : string }.
End NoteIn.

Module NoteOut.
Record t : Type := Build
  { title : string;
    content : string;
    id : Z;
    user_id : Z;
    created_at : datetime }.

Definition from_orm (n : NoteDB.t) : t :=
  {| title := NoteDB.title n;
     content := NoteDB.content n;
     id := NoteDB.id n;
     user_id := NoteDB.user_id n;
     created_at := NoteDB.created_at n |}.
End NoteOut.

(** The body of a successful login. *)
Module TokenOut.
Record t : Type := Build
  { access_token : string;
    token_type : string }.
End TokenOut.

(** A byte 10xxxxxx continues a character of the UTF-8 encoding. *)
Definition continuation_byte (c : Ascii.ascii) : bool :=
  match c with
  | Ascii.Ascii _ _ _ _ _ _ b6 b7 => b7 && negb b6
  end.

(** [len(s)]: the number of characters of [s]. *)
Fixpoint len (s : string) : nat :=
  match s with
  | EmptyString => O
  | String c s' => if continuation_byte c then len s' else S (len s')
  end.

(** [constr(min_length=n)]. *)
Definition constr_min_length (n : nat) (s : string) : bool :=
  (n <=? len s)%nat.

(** ** Session primitives *)

(** The rowid SQLite gives an [INTEGER PRIMARY KEY] column on insert:
    one more than the largest in use, 1 in an empty table. *)
Definition next_rowid (ids : list Z) : Z := fold_right Z.max 0 ids + 1.

(** [db.query(User).filter(User.email == e).first()] *)
Definition first_user_by_email (e : string) (db : Session) : option User.t :=
  find (fun u => String.eqb (User.email u) e) (users db).

Definition query_user_by_email (e : string) : M (option User.t) :=
  fun db => (inr (first_user_by_email e db), db).

(** [db.query(NoteDB).filter(NoteDB.user_id == uid).all()] *)
Definition query_notes_of (uid : Z) : M (list NoteDB.t) :=
  fun db => (inr (filter (fun n => NoteDB.user_id n =? uid) (notes db)), db).

(** The integers [sqlite3] binds as a query parameter: those of the
    signed 64-bit range. *)
Definition sqlite_integer (z : Z) : bool :=
  (- 2 ^ 63 <=? z) && (z <? 2 ^ 63).

(** [db.query(NoteDB).filter(NoteDB.id == note_id, NoteDB.user_id == uid).first()].
    [note_id] is the path parameter, any Python int: the driver raises
    [OverflowError] when it does not fit.  [uid] was read from the
    table. *)
Definition query_note (note_id uid : Z) : M (option NoteDB.t) :=
  fun db =>
    if sqlite_integer note_id
    then
      (inr (find (fun n => (NoteDB.id n =? note_id) && (NoteDB.user_id n =? uid))
                 (notes db)), db)
    else
      (inl (OverflowError "Python int too large to convert to SQLite INTEGER"), db).

(** [db.add(new); db.commit(); db.refresh(new)] for a [User].  The email
    column is [unique=True]: the insert of a second row with the same
    email is refused by the store. *)
Definition add_user (utcnow : datetime) (email password_hash : string) : M User.t :=
  fun db =>
    if existsb (fun u => String.eqb (User.email u) email) (users db)
    then (inl IntegrityError, db)
    else
      let new := {| User.id := next_rowid (map User.id (users db));
                    User.email := email;
                    User.password_hash := password_hash;
                    User.created_at := utcnow |} in
      (inr new, {| users := users db ++ [new]; notes := notes db |}).

(** [db.add(db_note); db.commit(); db.refresh(db_note)] for a [NoteDB].
    SQLite does not check the foreign key unless asked to.  Both
    timestamp columns default to [datetime.utcnow]; the row gets the one
    reading [utcnow] for the two. *)
Definition add_note (utcnow : datetime) (title content : string) (user_id : Z)
  : M NoteDB.t :=
  fun db =>
    let db_note := {| NoteDB.id := next_rowid (map NoteDB.id (notes db));
                      NoteDB.title := title;
                      NoteDB.content := content;
                      NoteDB.user_id := user_id;
                      NoteDB.created_at := utcnow;
                      NoteDB.updated_at := utcnow |} in
    (inr db_note, {| users := users db; notes := notes db ++ [db_note] |}).

(** [db.delete(note); db.commit()]: DELETE FROM notes WHERE id = ?. *)
Definition delete (note : NoteDB.t) : M unit :=
  fun db =>
    (inr tt,
     {| users := users db;
        notes := filter (fun n => negb (NoteDB.id n =? NoteDB.id note)) (notes db) |}).

(** The dependency [Authorize] of a route, built before the body is
    validated. *)
Definition Depends (dep : Depends_AuthJWT) : M AuthJWT.t :=
  match dep with
  | Built Authorize => ret Authorize
  | InvalidHeaderError message => raise (AuthJWTException 422 message)
  end.

(** [Authorize.jwt_required()] *)
Definition jwt_required (Authorize : AuthJWT.t) : M unit :=
  match AuthJWT.jwt_required Authorize with
  | Some (status_code, message) => raise (AuthJWTException status_code message)
  | None => ret tt
  end.

(** [user.id], where [user] may be [None]. *)
Definition user_dot_id (user : option User.t) : M Z :=
  match user with
  | Some u => ret (User.id u)
  | None => raise (AttributeError "'NoneType' object has no attribute 'id'")
  end.

(** ** Endpoints *)

Section App.

(** The module-level [pwd_ctx] and pydantic's [EmailStr] validator
    (the validated address, or [None] when the value is rejected). *)
Variable pwd_ctx : CryptContext.t.
Variable EmailStr : string -> option string.

Definition hash_password (salt p : string) : M string :=
  match CryptContext.hash pwd_ctx salt p with
  | Some hashed => ret hashed
  | None => raise PasswordValueError
  end.

Definition verify_password (plain hashed : string) : bool :=
  CryptContext.verify pwd_ctx plain hashed.

(** [@app.post("/auth/register", response_model=UserOut)] *)
Definition register (utcnow : datetime) (salt : string) (user : UserCreate.t)
  : M User.t :=
  existing <- query_user_by_email (UserCreate.email user) ;;
  match existing with
  | Some _ =>
      raise (HTTPException 400 "User with this email already exists")
  | None =>
      password_hash <- hash_password salt (UserCreate.password user) ;;
      new <- add_user utcnow (UserCreate.email user) password_hash ;;
      ret new
  end.

(** [@app.post("/auth/login")] *)
Definition login (user : UserCreate.t) (Authorize : AuthJWT.t) : M TokenOut.t :=
  db_user <- query_user_by_email (UserCreate.email user) ;;
  match db_user with
  | None => raise (HTTPException 401 "Bad email or password")
  | Some u =>
      if negb (verify_password (UserCreate.password user) (User.password_hash u))
      then raise (HTTPException 401 "Bad email or password")
      else
        let access_token :=
          AuthJWT.create_access_token Authorize (User.email u) in
        ret {| TokenOut.access_token := access_token;
               TokenOut.token_type := "bearer" |}
  end.

(** [@app.post("/notes/", response_model=NoteOut)] *)
Definition create_note (utcnow : datetime) (note : NoteIn.t)
    (Authorize : AuthJWT.t) : M NoteDB.t :=
  jwt_required Authorize ;;;
  let current_email := AuthJWT.get_jwt_subject Authorize in
  user <- query_user_by_email current_email ;;
  match user with
  | None => raise (HTTPException 401 "Invalid user")
  | Some u =>
      db_note <- add_note utcnow (NoteIn.title note) (NoteIn.content note)
                   (User.id u) ;;
      ret db_note
  end.

(** [@app.get("/notes/", response_model=List[NoteOut])] *)
Definition get_notes (Authorize : AuthJWT.t) : M (list NoteDB.t) :=
  jwt_required Authorize ;;;
  let current_email := AuthJWT.get_jwt_subject Authorize in
  user <- query_user_by_email current_email ;;
  uid <- user_dot_id user ;;
  notes <- query_notes_of uid ;;
  ret notes.

(** [@app.get("/notes/{note_id}", response_model=NoteOut)] *)
Definition get_note (note_id : Z) (Authorize : AuthJWT.t) : M NoteDB.t :=
  jwt_required Authorize ;;;
  let current_email := AuthJWT.get_jwt_subject Authorize in
  user <- query_user_by_email current_email ;;
  uid <- user_dot_id user ;;
  note <- query_note note_id uid ;;
  match note with
  | None => raise (HTTPException 404 "Note not found")
  | Some n => ret n
  end.

(** [@app.delete("/notes/{note_id}")] *)
Definition delete_note (note_id : Z) (Authorize : AuthJWT.t) : M string :=
  jwt_required Authorize ;;;
  let current_email := AuthJWT.get_jwt_subject Authorize in
  user <- query_user_by_email current_email ;;
  uid <- user_dot_id user ;;
  note <- query_note note_id uid ;;
  match note with
  | None => raise (HTTPException 404 "Note not found or you are not owner")
  | Some n =>
      delete n ;;;
      ret "Note deleted successfully"
  end.

(** *** Routing: the dependencies, then body validation, then the
    endpoint, then the response model *)

(** A body parsed against [UserCreate]: [email: EmailStr],
    [password: constr(min_length=6)]. *)
Definition parse_UserCreate (email password : string) : M UserCreate.t :=
  match EmailStr email with
  | Some e =>
      if constr_min_length 6 password
      then ret {| UserCreate.email := e; UserCreate.password := password |}
      else raise RequestValidationError
  | None => raise RequestValidationError
  end.

(** A body parsed against [NoteIn]: both fields [constr(min_length=1)]. *)
Definition parse_NoteIn (title content : string) : M NoteIn.t :=
  if constr_min_length 1 title && constr_min_length 1 content
  then ret {| NoteIn.title := title; NoteIn.content := content |}
  else raise RequestValidationError.

(** A request, with what the process reads from its surroundings while
    serving it (clock, salt, the AuthJWT dependency). *)
Inductive Request : Type :=
| POST_auth_register (utcnow : datetime) (salt : string) (email password : string)
| POST_auth_login (email password : string) (Authorize : Depends_AuthJWT)
| POST_notes (utcnow : datetime) (title content : string)
    (Authorize : Depends_AuthJWT)
| GET_notes (Authorize : Depends_AuthJWT)
| GET_notes_id (note_id : Z) (Authorize : Depends_AuthJWT)
| DELETE_notes_id (note_id : Z) (Authorize : Depends_AuthJWT).

Inductive Body : Type :=
| UserBody (u : UserOut.t)
| TokenBody (t : TokenOut.t)
| NoteBody (n : NoteOut.t)
| NotesBody (l : list NoteOut.t)
| MessageBody (message : string).

Definition app (req : Request) : M Body :=
  match req with
  | POST_auth_register utcnow salt email password =>
      user <- parse_UserCreate email password ;;
      new <- register utcnow salt user ;;
      ret (UserBody (UserOut.from_orm new))
  | POST_auth_login email password dep =>
      Authorize <- Depends dep ;;
      user <- parse_UserCreate email password ;;
      t <- login user Authorize ;;
      ret (TokenBody t)
  | POST_notes utcnow title content dep =>
      Authorize <- Depends dep ;;
      note <- parse_NoteIn title content ;;
      db_note <- create_note utcnow note Authorize ;;
      ret (NoteBody (NoteOut.from_orm db_note))
  | GET_notes dep =>
      Authorize <- Depends dep ;;
      l <- get_notes Authorize ;;
      ret (NotesBody (map NoteOut.from_orm l))
  | GET_notes_id note_id dep =>
      Authorize <- Depends dep ;;
      n <- get_note note_id Authorize ;;
      ret (NoteBody (NoteOut.from_orm n))
  | DELETE_notes_id note_id dep =>
      Authorize <- Depends dep ;;
      message <- delete_note note_id Authorize ;;
      ret (MessageBody message)
  end.

(** The stores the service can be in: those a sequence of requests
    leads to from the empty schema. *)
Inductive reachable : Session -> Prop :=
| reachable_empty : reachable empty_db
| reachable_step req db : reachable db -> reachable (snd (app req db)).

End App.

(** ** Store invariants *)

(** [unique=True] on [User.email]. *)
Definition emails_unique (db : Session) : Prop :=
  NoDup (map User.email (users db)).

(** [ForeignKey("users.id")] on [NoteDB.user_id]. *)
Definition notes_have_owner (db : Session) : Prop :=
  forall n, In n (notes db) ->
    exists u, In u (users db) /\ User.id u = NoteDB.user_id n.

(** [primary_key=True] on both [id] columns. *)
Definition user_ids_unique (db : Session) : Prop :=
  NoDup (map User.id (users db)).

Definition note_ids_unique (db : Session) : Prop :=
  NoDup (map NoteDB.id (notes db)).

Record store_inv (db : Session) : Prop := mk_store_inv
  { inv_emails : emails_unique db;
    inv_owner : notes_have_owner db;
    inv_user_ids : user_ids_unique db;
    inv_note_ids : note_ids_unique db }.

(** Rows are only ever appended to [users]: none is removed or changed. *)
Definition users_kept (db db' : Session) : Prop :=
  exists added, users db' = (users db ++ added)%list.

(** What [A] owns: the rows of [notes] whose [user_id] is [A]'s id. *)
Definition owned_by (A : User.t) (n : NoteDB.t) : Prop :=
  NoteDB.user_id n = User.id A.

(** The caller of a protected route is [A]: the token passes
    [jwt_required] and its subject resolves to the row [A]. *)
Definition authenticated_as (Authorize : AuthJWT.t) (A : User.t) (db : Session)
  : Prop :=
  AuthJWT.jwt_required Authorize = None /\
  first_user_by_email (AuthJWT.get_jwt_subject Authorize) db = Some A.

(** The token is accepted but no row has its subject as email. *)
Definition subject_unresolved (Authorize : AuthJWT.t) (db : Session) : Prop :=
  AuthJWT.jwt_required Authorize = None /\
  first_user_by_email (AuthJWT.get_jwt_subject Authorize) db = None.

(** What the body schemas let into the tables: an email is a value
    [EmailStr] returned, a title and a content have at least one
    character. *)
Definition validated_store (EmailStr : string -> option string) (db : Session)
  : Prop :=
  (forall u, In u (users db) -> exists raw, EmailStr raw = Some (User.email u)) /\
  (forall n, In n (notes db) ->
     constr_min_length 1 (NoteDB.title n) = true /\
     constr_min_length 1 (NoteDB.content n) = true).

(** ** Token service (specification, section 4.2) *)

Module TokenService.

(** Modelled from the spec: the signing primitive and the wire format of
    the token service, which main.py takes from the fastapi_jwt_auth
    library and holds no code of.  [sign key subject expiry] is the
    signature of a payload under a key, [serialize] makes the token of a
    payload and a signature, and [parse] reads a token back, with [None]
    for a malformed one. *)
Record Primitive (token : Type) : Type := Build_Primitive
  { sign : string -> string -> Z -> string;
    serialize : string -> Z -> string -> token;
    parse : token -> option (string * Z * string) }.

Arguments sign {token}.
Arguments serialize {token}.
Arguments parse {token}.

(** Modelled from the spec: the failure of [verify], which "fails with
    Unauthorized". *)
Inductive Failure : Type := Unauthorized.

(** Modelled from the spec: [issue(subject) -> token], which "produces a
    signed token embedding subject and an expiry timestamp, signed with
    a process-wide secret key".  [now] is the time of issuance and
    [lifetime] the configured expiry. *)
Definition issue {token} (P : Primitive token) (secret : string)
    (lifetime now : Z) (subject : string) : token :=
  let expiry := now + lifetime in
  serialize P subject expiry (sign P secret subject expiry).

(** Modelled from the spec: [verify(token) -> subject | failure], which
    "validates signature and expiry; fails with Unauthorized if the
    signature is invalid, the token is malformed, or it is expired".
    [now] is the time of verification. *)
Definition verify {token} (P : Primitive token) (secret : string) (now : Z)
    (t : token) : Failure + string :=
  match parse P t with
  | None => inl Unauthorized
  | Some (subject, expiry, signature) =>
      if negb (String.eqb signature (sign P secret subject expiry))
      then inl Unauthorized
      else if expiry <=? now then inl Unauthorized
      else inr subject
  end.

End TokenService.

(** ** A small store and stand-ins for the collaborators, to run the
    endpoints on *)

Module Fixture.

Definition alice : User.t :=
  {| User.id := 1; User.email := "a@x.com";
     User.password_hash := "$secret1"; User.created_at := 100 |}.

Definition bob : User.t :=
  {| User.id := 2; User.email := "b@x.com";
     User.password_hash := "$hunter22"; User.created_at := 101 |}.

Definition alice_note : NoteDB.t :=
  {| NoteDB.id := 1; NoteDB.title := "todo"; NoteDB.content := "milk";
     NoteDB.user_id := 1; NoteDB.created_at := 110; NoteDB.updated_at := 110 |}.

Definition bob_note : NoteDB.t :=
  {| NoteDB.id := 2; NoteDB.title := "plan"; NoteDB.content := "ship";
     NoteDB.user_id := 2; NoteDB.created_at := 120; NoteDB.updated_at := 120 |}.

Definition db : Session :=
  {| users := [alice; bob]; notes := [alice_note; bob_note] |}.

(** An [Authorize] whose token is accepted and carries [subject]. *)
Definition bearer (subject : string) : AuthJWT.t :=
  {| AuthJWT.jwt_required := None;
     AuthJWT.get_jwt_subject := subject;
     AuthJWT.create_access_token := fun s => ("jwt:" ++ s)%string |}.

(** A context that, like passlib's, refuses a password with a NUL byte. *)
Definition pwd_ctx : CryptContext.t :=
  {| CryptContext.hash := fun _ p =>
       match String.index 0 (String Ascii.zero "") p with
       | Some _ => None
       | None => Some ("$" ++ p)%string
       end;
     CryptContext.verify := fun plain hashed => String.eqb ("$" ++ plain) hashed |}.

(** A password of seven characters, the fourth of which is NUL. *)
Definition nul_password : string :=
  ("abc" ++ String Ascii.zero "def")%string.

(** Tokens kept as the triple they embed, signed by joining key and
    payload. *)
Definition tokens : TokenService.Primitive (string * Z * string) :=
  {| TokenService.sign := fun key subject expiry =>
       (key ++ "/" ++ subject ++ "/" ++ HexString.of_Z expiry)%string;
     TokenService.serialize := fun subject expiry signature =>
       (subject, expiry, signature);
     TokenService.parse := fun t => Some t |}.

Definition EmailStr (s : string) : option string :=
  match String.index 0 "@" s with
  | Some _ => Some s
  | None => None
  end.

End Fixture.

(** * Properties *)

(** ** The handler monad and the dependency *)

Lemma bind_ret_l {A B} (a : A) (k : A -> M B) : bind (ret a) k = k a.
Proof. reflexivity. Qed.

Lemma app_built_dependency {B} (Authorize : AuthJWT.t) (k : AuthJWT.t -> M B) :
  bind (Depends (Built Authorize)) k = k Authorize.
Proof. reflexivity. Qed.

Lemma Depends_pure (dep : Depends_AuthJWT) (db : Session) :
  snd (Depends dep db) = db.
Proof. destruct dep; reflexivity. Qed.

(** A property of the store that holds before [m >>= k] holds after it
    when [m] leaves the store alone and [k] establishes it. *)
Lemma snd_bind_pure {A B} (P : Session -> Prop) (m : M A) (k : A -> M B)
    (db : Session) :
  snd (m db) = db ->
  P db ->
  (forall a, fst (m db) = inr a -> P (snd (k a db))) ->
  P (snd ((a <- m ;; k a) db)).
Proof.
  intros Hm Hdb Hk. unfold bind.
  destruct (m db) as [[e|a] db1] eqn:E; simpl in Hm; subst db1; simpl.
  - exact Hdb.
  - exact (Hk a eq_refl).
Qed.

Lemma snd_bind1 {B C} (k : M B) (g : B -> C) (db : Session) :
  snd ((b <- k ;; ret (g b)) db) = snd (k db).
Proof.
  unfold bind, ret. destruct (k db) as [[e|b] db1]; reflexivity.
Qed.

(** ** Lists and rowids *)

Lemma find_all_false {A} (f : A -> bool) (l : list A) :
  (forall x, In x l -> f x = false) -> find f l = None.
Proof.
  induction l as [|a l IH]; intros H; simpl; [reflexivity|].
  rewrite (H a (or_introl eq_refl)).
  apply IH. intros x Hx. apply H. right. exact Hx.
Qed.

Lemma find_none_iff_existsb {A} (f : A -> bool) (l : list A) :
  find f l = None <-> existsb f l = false.
Proof.
  induction l as [|a l IH]; simpl; [tauto|].
  destruct (f a); simpl; [split; discriminate | exact IH].
Qed.

Lemma next_rowid_above (ids : list Z) (x : Z) :
  In x ids -> x < next_rowid ids.
Proof.
  unfold next_rowid.
  induction ids as [|a ids IH]; simpl; [tauto|].
  intros [->|Hx]; [lia|]. specialize (IH Hx). lia.
Qed.

Lemma next_rowid_fresh (ids : list Z) : ~ In (next_rowid ids) ids.
Proof. intros H. apply next_rowid_above in H. lia. Qed.

Lemma next_rowid_positive (ids : list Z) : 0 < next_rowid ids.
Proof.
  unfold next_rowid. induction ids as [|a ids IH]; simpl; lia.
Qed.

Lemma NoDup_snoc {A} (l : list A) (a : A) :
  NoDup l -> ~ In a l -> NoDup (l ++ [a]).
Proof.
  intros Hl Ha. induction Hl as [|x l Hx Hl IH]; simpl.
  - constructor; [tauto | constructor].
  - constructor.
    + rewrite in_app_iff. simpl. intros [H|[H|[]]]; [tauto|].
      subst. apply Ha. left. reflexivity.
    + apply IH. intros H. apply Ha. right. exact H.
Qed.

(** ** Resolution of a subject to a row *)

Lemma first_user_by_email_some (e : string) (db : Session) (u : User.t) :
  first_user_by_email e db = Some u -> In u (users db) /\ User.email u = e.
Proof.
  unfold first_user_by_email. intros H. apply find_some in H.
  destruct H as [Hin Heq]. apply String.eqb_eq in Heq. tauto.
Qed.

Lemma first_user_by_email_none (e : string) (db : Session) :
  first_user_by_email e db = None <-> ~ In e (map User.email (users db)).
Proof.
  unfold first_user_by_email. split.
  - intros H Hin. apply in_map_iff in Hin. destruct Hin as [u [Hu Hin]].
    apply (find_none _ _ H) in Hin. rewrite Hu, String.eqb_refl in Hin.
    discriminate.
  - intros H. apply find_all_false. intros u Hu.
    apply String.eqb_neq. intros Heq. apply H. rewrite <- Heq.
    apply in_map. exact Hu.
Qed.

(** Under the unique constraint the row is the one with that email. *)
Lemma first_user_by_email_unique (db : Session) (u : User.t) :
  emails_unique db -> In u (users db) ->
  first_user_by_email (User.email u) db = Some u.
Proof.
  unfold emails_unique, first_user_by_email.
  induction (users db) as [|a l IH]; simpl; [tauto|].
  intros Hnd [->|Hin].
  - rewrite String.eqb_refl. reflexivity.
  - inversion Hnd as [|? ? Hnotin Hnd']; subst.
    destruct (String.eqb (User.email a) (User.email u)) eqn:E.
    + apply String.eqb_eq in E. exfalso. apply Hnotin. rewrite E.
      apply in_map. exact Hin.
    + apply IH; assumption.
Qed.

(** ** What each endpoint does for a resolved caller *)

Lemma get_notes_run (Authorize : AuthJWT.t) (A : User.t) (db : Session) :
  authenticated_as Authorize A db ->
  get_notes Authorize db =
    (inr (filter (fun n => NoteDB.user_id n =? User.id A) (notes db)), db).
Proof.
  intros [Hjwt Hres].
  unfold get_notes, jwt_required, bind, query_user_by_email.
  rewrite Hjwt. simpl. rewrite Hres. reflexivity.
Qed.

Lemma get_note_run (note_id : Z) (Authorize : AuthJWT.t) (A : User.t) (db : Session) :
  authenticated_as Authorize A db ->
  sqlite_integer note_id = true ->
  get_note note_id Authorize db =
    match find (fun n => (NoteDB.id n =? note_id) && (NoteDB.user_id n =? User.id A))
               (notes db) with
    | Some n => (inr n, db)
    | None => (inl (HTTPException 404 "Note not found"), db)
    end.
Proof.
  intros [Hjwt Hres] Hfit.
  unfold get_note, jwt_required, bind, query_user_by_email, query_note.
  rewrite Hjwt. simpl. rewrite Hres. simpl. rewrite Hfit.
  destruct (find _ (notes db)); reflexivity.
Qed.

Lemma delete_note_run (note_id : Z) (Authorize : AuthJWT.t) (A : User.t) (db : Session) :
  authenticated_as Authorize A db ->
  sqlite_integer note_id = true ->
  delete_note note_id Authorize db =
    match find (fun n => (NoteDB.id n =? note_id) && (NoteDB.user_id n =? User.id A))
               (notes db) with
    | Some n =>
        (inr "Note deleted successfully",
         {| users := users db;
            notes := filter (fun m => negb (NoteDB.id m =? NoteDB.id n)) (notes db) |})
    | None => (inl (HTTPException 404 "Note not found or you are not owner"), db)
    end.
Proof.
  intros [Hjwt Hres] Hfit.
  unfold delete_note, jwt_required, bind, query_user_by_email, query_note.
  rewrite Hjwt. simpl. rewrite Hres. simpl. rewrite Hfit.
  destruct (find _ (notes db)); reflexivity.
Qed.

(** A path integer the driver cannot bind. *)
Lemma note_id_overflow_run
    (note_id : Z) (Authorize : AuthJWT.t) (A : User.t) (db : Session) :
  authenticated_as Authorize A db ->
  sqlite_integer note_id = false ->
  get_note note_id Authorize db
    = (inl (OverflowError "Python int too large to convert to SQLite INTEGER"), db) /\
  delete_note note_id Authorize db
    = (inl (OverflowError "Python int too large to convert to SQLite INTEGER"), db).
Proof.
  intros [Hjwt Hres] Hfit.
  unfold get_note, delete_note, jwt_required, bind, query_user_by_email, query_note.
  rewrite Hjwt. simpl. rewrite Hres. simpl. rewrite Hfit. split; reflexivity.
Qed.

Lemma no_owned_note_find (A : User.t) (note_id : Z) (l : list NoteDB.t) :
  (forall n, In n l -> NoteDB.id n = note_id -> ~ owned_by A n) ->
  find (fun n => (NoteDB.id n =? note_id) && (NoteDB.user_id n =? User.id A)) l = None.
Proof.
  intros H. apply find_all_false. intros n Hn.
  apply andb_false_iff.
  destruct (Z.eqb_spec (NoteDB.id n) note_id) as [E|E]; [right | left; reflexivity].
  apply Z.eqb_neq. exact (H n Hn E).
Qed.

(** ** Note isolation *)

(** C1.  When the caller is the user [A], the requested id is one the
    driver can bind (an integer of the signed 64-bit range) and no note
    with that id is owned by [A] (the id is unused, or its note belongs
    to someone else), [get_note] and [delete_note] both raise the 404
    [HTTPException] and leave the store as it was: the answer is the
    same in both cases, and it is neither a success nor a 401. *)
Theorem foreign_note_not_found
    (db : Session) (Authorize : AuthJWT.t) (A : User.t) (note_id : Z) :
  authenticated_as Authorize A db ->
  sqlite_integer note_id = true ->
  (forall n, In n (notes db) -> NoteDB.id n = note_id -> ~ owned_by A n) ->
  get_note note_id Authorize db
    = (inl (HTTPException 404 "Note not found"), db) /\
  delete_note note_id Authorize db
    = (inl (HTTPException 404 "Note not found or you are not owner"), db) /\
  http_status (fst (get_note note_id Authorize db)) = 404 /\
  http_status (fst (delete_note note_id Authorize db)) = 404.
Proof.
  intros Hauth Hfit Hforeign.
  rewrite (get_note_run _ _ _ _ Hauth Hfit), (delete_note_run _ _ _ _ Hauth Hfit).
  rewrite (no_owned_note_find _ _ _ Hforeign).
  repeat split; reflexivity.
Qed.

Lemma foreign_note_not_found_witness :
  authenticated_as (Fixture.bearer "a@x.com") Fixture.alice Fixture.db /\
  sqlite_integer 2 = true /\
  get_note 2 (Fixture.bearer "a@x.com") Fixture.db
    = (inl (HTTPException 404 "Note not found"), Fixture.db) /\
  delete_note 2 (Fixture.bearer "a@x.com") Fixture.db
    = (inl (HTTPException 404 "Note not found or you are not owner"), Fixture.db) /\
  http_status (fst (get_note 2 (Fixture.bearer "a@x.com") Fixture.db)) = 404 /\
  http_status (fst (delete_note 2 (Fixture.bearer "a@x.com") Fixture.db)) = 404.
Proof.
  assert (Hauth : authenticated_as (Fixture.bearer "a@x.com") Fixture.alice Fixture.db)
    by (split; reflexivity).
  split; [exact Hauth|]. split; [reflexivity|].
  apply (foreign_note_not_found Fixture.db _ Fixture.alice 2 Hauth eq_refl).
  intros n [<-|[<-|[]]] Hid Hown; unfold owned_by in Hown; simpl in *; discriminate.
Defined.

(** An id the driver cannot bind.  Alice asks for the note 2^63, an id
    no note has, with an accepted token: [get_note] and [delete_note]
    end in the [OverflowError] of the driver, served as a 500, and not
    in the 404.  The store is not touched. *)
Lemma unbindable_note_id_answers_500 :
  let Authorize := Fixture.bearer "a@x.com" in
  authenticated_as Authorize Fixture.alice Fixture.db /\
  (forall n, In n (notes Fixture.db) -> NoteDB.id n <> 2 ^ 63) /\
  get_note (2 ^ 63) Authorize Fixture.db
    = (inl (OverflowError "Python int too large to convert to SQLite INTEGER"),
       Fixture.db) /\
  delete_note (2 ^ 63) Authorize Fixture.db
    = (inl (OverflowError "Python int too large to convert to SQLite INTEGER"),
       Fixture.db) /\
  fst (get_note (2 ^ 63) Authorize Fixture.db)
    <> inl (HTTPException 404 "Note not found") /\
  fst (delete_note (2 ^ 63) Authorize Fixture.db)
    <> inl (HTTPException 404 "Note not found or you are not owner") /\
  http_status (fst (get_note (2 ^ 63) Authorize Fixture.db)) = 500 /\
  http_status (fst (delete_note (2 ^ 63) Authorize Fixture.db)) = 500.
Proof.
  intros Authorize.
  assert (Hauth : authenticated_as Authorize Fixture.alice Fixture.db)
    by (split; reflexivity).
  split; [exact Hauth|]. split.
  { intros n [<-|[<-|[]]]; simpl; discriminate. }
  destruct (note_id_overflow_run (2 ^ 63) Authorize Fixture.alice Fixture.db Hauth
              eq_refl) as [Hget Hdel].
  rewrite Hget, Hdel. cbn [fst].
  repeat split; try discriminate; reflexivity.
Qed.

(** ** A token whose subject has no row *)

Lemma unresolved_subject_run
    (db : Session) (Authorize : AuthJWT.t) (utcnow : datetime) (note : NoteIn.t)
    (note_id : Z) :
  subject_unresolved Authorize db ->
  create_note utcnow note Authorize db
    = (inl (HTTPException 401 "Invalid user"), db) /\
  get_notes Authorize db
    = (inl (AttributeError "'NoneType' object has no attribute 'id'"), db) /\
  get_note note_id Authorize db
    = (inl (AttributeError "'NoneType' object has no attribute 'id'"), db) /\
  delete_note note_id Authorize db
    = (inl (AttributeError "'NoneType' object has no attribute 'id'"), db).
Proof.
  intros [Hjwt Hres].
  unfold create_note, get_notes, get_note, delete_note,
    jwt_required, bind, query_user_by_email.
  rewrite Hjwt. simpl. rewrite Hres. simpl. repeat split; reflexivity.
Qed.

(** C2.  With the accepted token of "ghost@x.com", an address no row of
    the store has, POST /notes/ answers 401, while GET /notes/,
    GET /notes/2 and DELETE /notes/2 end in an [AttributeError] on
    [user.id], which is served as a 500 and not as a 401.  No route
    touches the store. *)
Theorem unresolved_subject_only_create_answers_401 :
  let Authorize := Fixture.bearer "ghost@x.com" in
  let note := {| NoteIn.title := "t"; NoteIn.content := "c" |} in
  subject_unresolved Authorize Fixture.db /\
  http_status (fst (create_note 130 note Authorize Fixture.db)) = 401 /\
  http_status (fst (get_notes Authorize Fixture.db)) = 500 /\
  http_status (fst (get_note 2 Authorize Fixture.db)) = 500 /\
  http_status (fst (delete_note 2 Authorize Fixture.db)) = 500 /\
  snd (create_note 130 note Authorize Fixture.db) = Fixture.db /\
  snd (get_notes Authorize Fixture.db) = Fixture.db /\
  snd (get_note 2 Authorize Fixture.db) = Fixture.db /\
  snd (delete_note 2 Authorize Fixture.db) = Fixture.db.
Proof.
  intros Authorize note.
  assert (H : subject_unresolved Authorize Fixture.db) by (split; reflexivity).
  destruct (unresolved_subject_run Fixture.db Authorize 130 note 2 H)
    as (Hc & Hl & Hg & Hd).
  rewrite Hc, Hl, Hg, Hd. simpl. repeat split; assumption || reflexivity.
Qed.

(** ** Listing *)

Lemma length_filter_count (uid : Z) (l : list NoteDB.t) :
  List.length (filter (fun n => NoteDB.user_id n =? uid) l)
  = count_occ Z.eq_dec (map NoteDB.user_id l) uid.
Proof.
  induction l as [|a l IH]; simpl; [reflexivity|].
  destruct (Z.eqb_spec (NoteDB.user_id a) uid) as [E|E];
    destruct (Z.eq_dec (NoteDB.user_id a) uid) as [E'|E']; try contradiction;
    simpl; rewrite IH; reflexivity.
Qed.

(** C3.  For a caller resolved to the user [A], GET /notes/ answers 200
    with the rows of [notes] whose [user_id] is [A]'s id, in table order,
    and does not change the store: a note is returned exactly when it is
    in the store and owned by [A], every returned body carries [A]'s id
    as [user_id], and the number returned is the number of notes of [A]
    in the store. *)
Theorem get_notes_exactly_own
    (pwd_ctx : CryptContext.t) (EmailStr : string -> option string)
    (db : Session) (Authorize : AuthJWT.t) (A : User.t) :
  authenticated_as Authorize A db ->
  exists l : list NoteDB.t,
    get_notes Authorize db = (inr l, db) /\
    app pwd_ctx EmailStr (GET_notes Authorize) db
      = (inr (NotesBody (map NoteOut.from_orm l)), db) /\
    (forall n, In n l <-> In n (notes db) /\ owned_by A n) /\
    Forall (fun o => NoteOut.user_id o = User.id A) (map NoteOut.from_orm l) /\
    List.length l = count_occ Z.eq_dec (map NoteDB.user_id (notes db)) (User.id A).
Proof.
  intros Hauth.
  exists (filter (fun n => NoteDB.user_id n =? User.id A) (notes db)).
  pose proof (get_notes_run _ _ _ Hauth) as Hrun.
  split; [exact Hrun|]. split.
  { unfold app. rewrite app_built_dependency. unfold bind. rewrite Hrun.
    reflexivity. }
  split.
  { intros n. rewrite filter_In. unfold owned_by. rewrite Z.eqb_eq. tauto. }
  split.
  { apply Forall_forall. intros o Ho. apply in_map_iff in Ho.
    destruct Ho as [n [<- Hn]]. apply filter_In in Hn.
    simpl. apply Z.eqb_eq. tauto. }
  apply length_filter_count.
Qed.

Lemma get_notes_exactly_own_witness :
  authenticated_as (Fixture.bearer "b@x.com") Fixture.bob Fixture.db /\
  exists l : list NoteDB.t,
    get_notes (Fixture.bearer "b@x.com") Fixture.db = (inr l, Fixture.db) /\
    app Fixture.pwd_ctx Fixture.EmailStr (GET_notes (Fixture.bearer "b@x.com")) Fixture.db
      = (inr (NotesBody (map NoteOut.from_orm l)), Fixture.db) /\
    (forall n, In n l <-> In n (notes Fixture.db) /\ owned_by Fixture.bob n) /\
    Forall (fun o => NoteOut.user_id o = User.id Fixture.bob) (map NoteOut.from_orm l) /\
    List.length l
      = count_occ Z.eq_dec (map NoteDB.user_id (notes Fixture.db)) (User.id Fixture.bob).
Proof.
  assert (Hauth : authenticated_as (Fixture.bearer "b@x.com") Fixture.bob Fixture.db)
    by (split; reflexivity).
  split; [exact Hauth|].
  exact (get_notes_exactly_own Fixture.pwd_ctx Fixture.EmailStr Fixture.db _ _ Hauth).
Defined.

(** ** Registration *)

Lemma register_run
    (pwd_ctx : CryptContext.t) (utcnow : datetime) (salt : string)
    (user : UserCreate.t) (db : Session) :
  register pwd_ctx utcnow salt user db =
    match first_user_by_email (UserCreate.email user) db with
    | Some _ =>
        (inl (HTTPException 400 "User with this email already exists"), db)
    | None =>
        match CryptContext.hash pwd_ctx salt (UserCreate.password user) with
        | Some hashed =>
            let new :=
              {| User.id := next_rowid (map User.id (users db));
                 User.email := UserCreate.email user;
                 User.password_hash := hashed;
                 User.created_at := utcnow |} in
            (inr new, {| users := users db ++ [new]; notes := notes db |})
        | None => (inl PasswordValueError, db)
        end
    end.
Proof.
  unfold register, bind, query_user_by_email, hash_password.
  destruct (first_user_by_email (UserCreate.email user) db) eqn:E; [reflexivity|].
  destruct (CryptContext.hash pwd_ctx salt (UserCreate.password user));
    [|reflexivity].
  unfold ret, add_user. unfold first_user_by_email in E.
  apply find_none_iff_existsb in E. rewrite E. reflexivity.
Qed.

(** C4.  [register] on an email some row already has raises the 400
    [HTTPException] and leaves the store as it was.  On an email no row
    has, when the hashing context returns a hash for the password,
    [register] appends one row with that hash and returns it; the
    response model [UserOut] then holds the id given to the row, the
    email and the creation time, and every other registration of that
    email that succeeds at that time, whatever its password, salt and
    hashing context, has the same [UserOut]: neither the password nor
    its hash is part of it.  Served through the route with a body that
    validates to this request, the answer is that [UserOut].  When the
    context refuses the password, [register] raises and adds no row. *)
Theorem register_conflict_or_user_out
    (pwd_ctx : CryptContext.t)
    (utcnow : datetime) (salt : string) (user : UserCreate.t) (db : Session) :
  (In (UserCreate.email user) (map User.email (users db)) ->
     register pwd_ctx utcnow salt user db
       = (inl (HTTPException 400 "User with this email already exists"), db) /\
     http_status (fst (register pwd_ctx utcnow salt user db)) = 400) /\
  (~ In (UserCreate.email user) (map User.email (users db)) ->
     (forall hashed,
        CryptContext.hash pwd_ctx salt (UserCreate.password user) = Some hashed ->
        exists new : User.t,
          register pwd_ctx utcnow salt user db
            = (inr new, {| users := users db ++ [new]; notes := notes db |}) /\
          User.password_hash new = hashed /\
          UserOut.from_orm new
            = {| UserOut.id := next_rowid (map User.id (users db));
                 UserOut.email := UserCreate.email user;
                 UserOut.created_at := utcnow |} /\
          (forall pwd_ctx' salt' password' new',
             fst (register pwd_ctx' utcnow salt'
                    {| UserCreate.email := UserCreate.email user;
                       UserCreate.password := password' |} db) = inr new' ->
             UserOut.from_orm new' = UserOut.from_orm new) /\
          (forall EmailStr email password,
             parse_UserCreate EmailStr email password db = (inr user, db) ->
             app pwd_ctx EmailStr
                 (POST_auth_register utcnow salt email password) db
               = (inr (UserBody (UserOut.from_orm new)),
                  {| users := users db ++ [new]; notes := notes db |}))) /\
     (CryptContext.hash pwd_ctx salt (UserCreate.password user) = None ->
      register pwd_ctx utcnow salt user db = (inl PasswordValueError, db))).
Proof.
  split.
  - intros Hin. rewrite register_run.
    destruct (first_user_by_email (UserCreate.email user) db) eqn:E.
    + split; reflexivity.
    + apply first_user_by_email_none in E. contradiction.
  - intros Hnot. apply first_user_by_email_none in Hnot. split.
    + intros hashed Hhash.
      eexists. split; [rewrite register_run, Hnot, Hhash; reflexivity|].
      split; [reflexivity|]. split; [reflexivity|]. split.
      * intros pwd_ctx' salt' password' new'.
        rewrite register_run. cbn [UserCreate.email UserCreate.password].
        rewrite Hnot.
        destruct (CryptContext.hash pwd_ctx' salt' password'); [|discriminate].
        simpl. intros H. injection H as <-. reflexivity.
      * intros EmailStr email password Hparse.
        unfold app, bind. rewrite Hparse, register_run, Hnot, Hhash.
        reflexivity.
    + intros Hhash. rewrite register_run, Hnot, Hhash. reflexivity.
Qed.

Lemma register_conflict_or_user_out_witness :
  let again := {| UserCreate.email := "a@x.com"; UserCreate.password := "secret1" |} in
  let carol := {| UserCreate.email := "c@x.com"; UserCreate.password := "topsecret" |} in
  (In "a@x.com" (map User.email (users Fixture.db)) /\
   register Fixture.pwd_ctx 130 "salt" again Fixture.db
     = (inl (HTTPException 400 "User with this email already exists"), Fixture.db)) /\
  (~ In "c@x.com" (map User.email (users Fixture.db)) /\
   CryptContext.hash Fixture.pwd_ctx "salt" "topsecret" = Some "$topsecret" /\
   exists new : User.t,
     fst (register Fixture.pwd_ctx 130 "salt" carol Fixture.db) = inr new /\
     UserOut.from_orm new
       = {| UserOut.id := 3; UserOut.email := "c@x.com"; UserOut.created_at := 130 |}).
Proof.
  intros again carol. split.
  - assert (Hin : In "a@x.com" (map User.email (users Fixture.db)))
      by (simpl; tauto).
    split; [exact Hin|].
    exact (proj1 (proj1 (register_conflict_or_user_out Fixture.pwd_ctx
                           130 "salt" again Fixture.db) Hin)).
  - assert (Hnot : ~ In "c@x.com" (map User.email (users Fixture.db)))
      by (simpl; intros [H|[H|[]]]; discriminate H).
    assert (Hhash : CryptContext.hash Fixture.pwd_ctx "salt" "topsecret"
                    = Some "$topsecret") by reflexivity.
    split; [exact Hnot|]. split; [exact Hhash|].
    destruct (proj1 (proj2 (register_conflict_or_user_out Fixture.pwd_ctx
                              130 "salt" carol Fixture.db) Hnot) _ Hhash)
      as [new [Hrun [_ [Hout _]]]].
    exists new. rewrite Hrun. split; [reflexivity | exact Hout].
Defined.

(** A password the hashing context refuses.  A first registration of
    c@x.com whose password is "abc", a NUL character and "def": the body
    passes [UserCreate] (an address, seven characters), no row has the
    email, and the context refuses the password, as passlib's does.
    [register] ends in [PasswordValueError], served as a 500, and no row
    is added. *)
Lemma register_nul_password_answers_500 :
  let user := {| UserCreate.email := "c@x.com";
                 UserCreate.password := Fixture.nul_password |} in
  parse_UserCreate Fixture.EmailStr "c@x.com" Fixture.nul_password Fixture.db
    = (inr user, Fixture.db) /\
  ~ In "c@x.com" (map User.email (users Fixture.db)) /\
  CryptContext.hash Fixture.pwd_ctx "salt" Fixture.nul_password = None /\
  register Fixture.pwd_ctx 130 "salt" user Fixture.db
    = (inl PasswordValueError, Fixture.db) /\
  app Fixture.pwd_ctx Fixture.EmailStr
      (POST_auth_register 130 "salt" "c@x.com" Fixture.nul_password) Fixture.db
    = (inl PasswordValueError, Fixture.db) /\
  (forall new, fst (register Fixture.pwd_ctx 130 "salt" user Fixture.db) <> inr new) /\
  http_status
    (fst (app Fixture.pwd_ctx Fixture.EmailStr
            (POST_auth_register 130 "salt" "c@x.com" Fixture.nul_password)
            Fixture.db)) = 500.
Proof.
  intros user. split; [reflexivity|]. split.
  { simpl. intros [H|[H|[]]]; discriminate H. }
  repeat split; try reflexivity. intros new. discriminate.
Qed.

(** ** Deletion *)

Lemma filter_all_true {A} (f : A -> bool) (l : list A) :
  (forall x, In x l -> f x = true) -> filter f l = l.
Proof.
  induction l as [|a l IH]; intros H; simpl; [reflexivity|].
  rewrite (H a (or_introl eq_refl)). f_equal.
  apply IH. intros x Hx. apply H. right. exact Hx.
Qed.

(** Deleting by a primary key that occurs once removes one row and keeps
    the others in place. *)
Lemma delete_by_id_split (n : NoteDB.t) (l : list NoteDB.t) :
  NoDup (map NoteDB.id l) -> In n l ->
  exists l1 l2,
    l = (l1 ++ n :: l2)%list /\
    filter (fun m => negb (NoteDB.id m =? NoteDB.id n)) l = (l1 ++ l2)%list.
Proof.
  intros Hnd Hin. apply in_split in Hin. destruct Hin as [l1 [l2 ->]].
  exists l1, l2. split; [reflexivity|].
  rewrite map_app in Hnd. simpl in Hnd.
  pose proof (NoDup_remove_2 _ _ _ Hnd) as Hfresh.
  rewrite in_app_iff in Hfresh.
  rewrite filter_app. simpl. rewrite Z.eqb_refl. simpl.
  rewrite !filter_all_true; [reflexivity| |];
    intros x Hx; apply negb_true_iff, Z.eqb_neq; intros E;
    apply Hfresh; rewrite <- E; [right | left]; apply in_map; exact Hx.
Qed.

Lemma owned_note_find (A : User.t) (note_id : Z) (l : list NoteDB.t) :
  (exists n, In n l /\ NoteDB.id n = note_id /\ owned_by A n) ->
  exists n,
    find (fun n => (NoteDB.id n =? note_id) && (NoteDB.user_id n =? User.id A)) l
      = Some n /\
    In n l /\ NoteDB.id n = note_id /\ owned_by A n.
Proof.
  intros [n [Hin [Hid Hown]]].
  destruct (find _ l) as [m|] eqn:E.
  - exists m. split; [reflexivity|]. apply find_some in E.
    destruct E as [Hm Hb]. apply andb_true_iff in Hb.
    rewrite !Z.eqb_eq in Hb. unfold owned_by. tauto.
  - apply (find_none _ _ E) in Hin. unfold owned_by in Hown.
    rewrite Hid, Hown, !Z.eqb_refl in Hin. discriminate.
Qed.

(** C5.  For a caller resolved to the user [A]: when [delete_note]
    succeeds, a note with the requested id was in the store and owned by
    [A], and when such a note is there (its id, like every id the table
    holds, being one the driver binds) [delete_note] succeeds.  When it
    succeeds, [users] is untouched, no note with that id is left, every
    note with another id is kept, and a following [get_note] of the same
    id raises the 404; on a store whose note ids are pairwise distinct
    (the primary key), [notes] loses that one row and keeps every other
    in place.  When it does not succeed the store is the one it started
    from, and for an id the driver binds the failure is the 404. *)
Theorem delete_note_iff_owned
    (db : Session) (Authorize : AuthJWT.t) (A : User.t) (note_id : Z) :
  authenticated_as Authorize A db ->
  let owned := exists n, In n (notes db) /\ NoteDB.id n = note_id /\ owned_by A n in
  let r := fst (delete_note note_id Authorize db) in
  let db' := snd (delete_note note_id Authorize db) in
  (r = inr "Note deleted successfully" -> owned) /\
  (owned -> sqlite_integer note_id = true -> r = inr "Note deleted successfully") /\
  (r = inr "Note deleted successfully" ->
     users db' = users db /\
     (note_ids_unique db ->
      exists n l1 l2,
        NoteDB.id n = note_id /\ owned_by A n /\
        notes db = (l1 ++ n :: l2)%list /\ notes db' = (l1 ++ l2)%list) /\
     (forall m, In m (notes db') <-> In m (notes db) /\ NoteDB.id m <> note_id) /\
     get_note note_id Authorize db'
       = (inl (HTTPException 404 "Note not found"), db')) /\
  (r <> inr "Note deleted successfully" -> db' = db) /\
  (~ owned -> sqlite_integer note_id = true ->
     r = inl (HTTPException 404 "Note not found or you are not owner")).
Proof.
  intros Hauth owned r db'. subst r db'.
  destruct (sqlite_integer note_id) eqn:Hfit.
  2:{ destruct (note_id_overflow_run note_id Authorize A db Hauth Hfit) as [_ Hdel].
      rewrite Hdel. cbn [fst snd].
      repeat split; try discriminate; reflexivity. }
  rewrite (delete_note_run _ _ _ _ Hauth Hfit).
  assert (Hsucc : owned ->
    exists n, find (fun n => (NoteDB.id n =? note_id) && (NoteDB.user_id n =? User.id A))
                   (notes db) = Some n /\
              In n (notes db) /\ NoteDB.id n = note_id /\ owned_by A n)
    by (apply owned_note_find).
  assert (Hfail : ~ owned ->
    find (fun n => (NoteDB.id n =? note_id) && (NoteDB.user_id n =? User.id A))
         (notes db) = None).
  { intros Hno. apply no_owned_note_find. intros n Hin Hid Hown.
    apply Hno. exists n. tauto. }
  destruct (find _ (notes db)) as [n|] eqn:E.
  - apply find_some in E. destruct E as [Hin Hb].
    apply andb_true_iff in Hb. rewrite !Z.eqb_eq in Hb. destruct Hb as [Hid Hown].
    assert (Ho : owned) by (exists n; unfold owned_by; tauto).
    cbn [fst snd users notes].
    split; [intros _; exact Ho|]. split; [reflexivity|]. split; [|split].
    + intros _. split; [reflexivity|]. split; [|split].
      * intros Hpk.
        destruct (delete_by_id_split n (notes db) Hpk Hin) as [l1 [l2 [Hl Hf]]].
        exists n, l1, l2. unfold owned_by. tauto.
      * intros m. rewrite filter_In, negb_true_iff, Z.eqb_neq, Hid. tauto.
      * assert (Hauth' : authenticated_as Authorize A
                  {| users := users db;
                     notes := filter (fun m => negb (NoteDB.id m =? NoteDB.id n))
                                (notes db) |})
          by exact Hauth.
        rewrite (get_note_run _ _ _ _ Hauth' Hfit). simpl.
        rewrite no_owned_note_find; [reflexivity|].
        intros m Hm Hmid. apply filter_In in Hm. destruct Hm as [_ Hm].
        apply negb_true_iff, Z.eqb_neq in Hm. congruence.
    + intros H. exfalso. apply H. reflexivity.
    + intros Hno. contradiction.
  - cbn [fst snd].
    split; [discriminate|]. split.
    { intros Ho _. destruct (Hsucc Ho) as [n [Hn _]]. discriminate Hn. }
    split; [discriminate|]. split; reflexivity.
Qed.

Lemma delete_note_iff_owned_witness :
  note_ids_unique Fixture.db /\
  authenticated_as (Fixture.bearer "a@x.com") Fixture.alice Fixture.db /\
  sqlite_integer 1 = true /\
  fst (delete_note 1 (Fixture.bearer "a@x.com") Fixture.db)
    = inr "Note deleted successfully" /\
  (exists n l1 l2,
     NoteDB.id n = 1 /\ owned_by Fixture.alice n /\
     notes Fixture.db = (l1 ++ n :: l2)%list /\
     notes (snd (delete_note 1 (Fixture.bearer "a@x.com") Fixture.db))
       = (l1 ++ l2)%list) /\
  fst (delete_note 2 (Fixture.bearer "a@x.com") Fixture.db)
    = inl (HTTPException 404 "Note not found or you are not owner").
Proof.
  assert (Hpk : note_ids_unique Fixture.db).
  { unfold note_ids_unique. simpl.
    repeat constructor; simpl; intros H; repeat destruct H as [H|H];
      try discriminate H; exact H. }
  assert (Hauth : authenticated_as (Fixture.bearer "a@x.com") Fixture.alice Fixture.db)
    by (split; reflexivity).
  assert (Hown : exists n, In n (notes Fixture.db) /\ NoteDB.id n = 1 /\
                           owned_by Fixture.alice n).
  { exists Fixture.alice_note. unfold owned_by. simpl. tauto. }
  split; [exact Hpk|]. split; [exact Hauth|]. split; [reflexivity|].
  destruct (delete_note_iff_owned Fixture.db _ _ 1 Hauth) as (_ & H1 & H1' & _).
  destruct (delete_note_iff_owned Fixture.db _ _ 2 Hauth) as (_ & _ & _ & _ & H2).
  pose proof (H1 Hown eq_refl) as Hdone.
  split; [exact Hdone|]. split.
  - exact (proj1 (proj2 (H1' Hdone)) Hpk).
  - apply H2; [|reflexivity]. intros [n [[<-|[<-|[]]] [Hid Hown']]];
      unfold owned_by in Hown'; simpl in *; discriminate.
Defined.

(** ** Login *)

(** C6.  [login] never changes the store.  It raises the 401
    [HTTPException], and so returns no token, when no row has the email
    of the request, and when the row the email resolves to has a hash
    that [verify_password] rejects for the password of the request.  In
    the remaining case the row's email is the email of the request, and
    the body is the token [create_access_token] makes for that email as
    subject, with [token_type] "bearer". *)
Theorem login_401_or_bearer_token
    (pwd_ctx : CryptContext.t) (user : UserCreate.t) (Authorize : AuthJWT.t)
    (db : Session) :
  let r := fst (login pwd_ctx user Authorize db) in
  snd (login pwd_ctx user Authorize db) = db /\
  (~ In (UserCreate.email user) (map User.email (users db)) ->
     r = inl (HTTPException 401 "Bad email or password") /\ http_status r = 401) /\
  (forall u,
     first_user_by_email (UserCreate.email user) db = Some u ->
     verify_password pwd_ctx (UserCreate.password user) (User.password_hash u) = false ->
     r = inl (HTTPException 401 "Bad email or password") /\ http_status r = 401) /\
  (forall u,
     first_user_by_email (UserCreate.email user) db = Some u ->
     verify_password pwd_ctx (UserCreate.password user) (User.password_hash u) = true ->
     User.email u = UserCreate.email user /\
     r = inr {| TokenOut.access_token :=
                  AuthJWT.create_access_token Authorize (UserCreate.email user);
                TokenOut.token_type := "bearer" |} /\
     http_status r = 200).
Proof.
  intros r. subst r.
  unfold login, bind, query_user_by_email.
  split; [|split; [|split]].
  - destruct (first_user_by_email (UserCreate.email user) db) as [u|];
      [destruct (verify_password _ _ _)|]; reflexivity.
  - intros Hnot. apply first_user_by_email_none in Hnot. rewrite Hnot.
    split; reflexivity.
  - intros u Hu Hv. rewrite Hu, Hv. split; reflexivity.
  - intros u Hu Hv. rewrite Hu, Hv. simpl.
    apply first_user_by_email_some in Hu. destruct Hu as [_ Hu].
    rewrite Hu. repeat split; reflexivity.
Qed.

Lemma login_401_or_bearer_token_witness :
  let good := {| UserCreate.email := "a@x.com"; UserCreate.password := "secret1" |} in
  let wrong := {| UserCreate.email := "a@x.com"; UserCreate.password := "secret2" |} in
  let nobody := {| UserCreate.email := "z@x.com"; UserCreate.password := "secret1" |} in
  fst (login Fixture.pwd_ctx good (Fixture.bearer "") Fixture.db)
    = inr {| TokenOut.access_token := "jwt:a@x.com"; TokenOut.token_type := "bearer" |} /\
  fst (login Fixture.pwd_ctx wrong (Fixture.bearer "") Fixture.db)
    = inl (HTTPException 401 "Bad email or password") /\
  fst (login Fixture.pwd_ctx nobody (Fixture.bearer "") Fixture.db)
    = inl (HTTPException 401 "Bad email or password").
Proof.
  intros good wrong nobody.
  destruct (login_401_or_bearer_token Fixture.pwd_ctx good (Fixture.bearer "") Fixture.db)
    as (_ & _ & _ & Hgood).
  destruct (login_401_or_bearer_token Fixture.pwd_ctx wrong (Fixture.bearer "") Fixture.db)
    as (_ & _ & Hwrong & _).
  destruct (login_401_or_bearer_token Fixture.pwd_ctx nobody (Fixture.bearer "") Fixture.db)
    as (_ & Hnobody & _ & _).
  split; [|split].
  - exact (proj1 (proj2 (Hgood Fixture.alice eq_refl eq_refl))).
  - exact (proj1 (Hwrong Fixture.alice eq_refl eq_refl)).
  - apply Hnobody. simpl. intros [H|[H|[]]]; discriminate H.
Defined.

(** ** Body validation *)

Lemma parse_UserCreate_rejects
    (EmailStr : string -> option string) (email password : string) (db : Session) :
  (len password < 6)%nat \/ EmailStr email = None ->
  parse_UserCreate EmailStr email password db = (inl RequestValidationError, db).
Proof.
  unfold parse_UserCreate, constr_min_length.
  intros [Hlen|Hemail].
  - destruct (EmailStr email); [|reflexivity].
    apply Nat.leb_gt in Hlen. rewrite Hlen. reflexivity.
  - rewrite Hemail. reflexivity.
Qed.

(** C10.  POST /auth/login parses its body against [UserCreate], the
    schema of POST /auth/register.  A body whose password has fewer than
    6 characters, or whose email [EmailStr] rejects, is answered with
    status 422 by both routes, whatever the store and the hashing
    context are: with the validation error once the [AuthJWT] dependency
    of the login route is built, and with the [InvalidHeaderError] of
    its constructor when the Authorization header is malformed.  The
    store is not changed, and the answer is not the 401 of a failed
    credential check. *)
Theorem login_body_validated_as_register
    (pwd_ctx : CryptContext.t) (EmailStr : string -> option string)
    (email password : string) (Authorize : Depends_AuthJWT)
    (utcnow : datetime) (salt : string) (db : Session) :
  (len password < 6)%nat \/ EmailStr email = None ->
  app pwd_ctx EmailStr (POST_auth_login email password Authorize) db
    = match Authorize with
      | Built _ => (inl RequestValidationError, db)
      | InvalidHeaderError message => (inl (AuthJWTException 422 message), db)
      end /\
  app pwd_ctx EmailStr (POST_auth_register utcnow salt email password) db
    = (inl RequestValidationError, db) /\
  http_status (fst (app pwd_ctx EmailStr (POST_auth_login email password Authorize) db))
    = 422.
Proof.
  intros Hbad. unfold app.
  destruct Authorize as [Authorize|message].
  - rewrite app_built_dependency. unfold bind.
    rewrite (parse_UserCreate_rejects EmailStr email password db Hbad).
    repeat split; reflexivity.
  - unfold bind.
    rewrite (parse_UserCreate_rejects EmailStr email password db Hbad).
    repeat split; reflexivity.
Qed.

Lemma login_body_validated_as_register_witness :
  (len "abc" < 6)%nat /\
  app Fixture.pwd_ctx Fixture.EmailStr
      (POST_auth_login "a@x.com" "abc" (Fixture.bearer "")) Fixture.db
    = (inl RequestValidationError, Fixture.db) /\
  app Fixture.pwd_ctx Fixture.EmailStr
      (POST_auth_login "a@x.com" "abc" (InvalidHeaderError "Bad Authorization header"))
      Fixture.db
    = (inl (AuthJWTException 422 "Bad Authorization header"), Fixture.db) /\
  app Fixture.pwd_ctx Fixture.EmailStr
      (POST_auth_login "not-an-address" "secret1" (Fixture.bearer "")) Fixture.db
    = (inl RequestValidationError, Fixture.db).
Proof.
  assert (Hlen : (len "abc" < 6)%nat) by (simpl; lia).
  split; [exact Hlen|]. split; [|split].
  - exact (proj1 (login_body_validated_as_register Fixture.pwd_ctx Fixture.EmailStr
                    "a@x.com" "abc" (Fixture.bearer "") 0 "" Fixture.db
                    (or_introl Hlen))).
  - exact (proj1 (login_body_validated_as_register Fixture.pwd_ctx Fixture.EmailStr
                    "a@x.com" "abc" (InvalidHeaderError "Bad Authorization header")
                    0 "" Fixture.db (or_introl Hlen))).
  - exact (proj1 (login_body_validated_as_register Fixture.pwd_ctx Fixture.EmailStr
                    "not-an-address" "secret1" (Fixture.bearer "") 0 "" Fixture.db
                    (or_intror eq_refl))).
Defined.

(** ** Store invariants *)

(** What a request can do to the store: nothing, append a user whose
    email is new, append a note of a user that is there, or remove
    notes. *)
Inductive effect (db : Session) : Session -> Prop :=
| effect_none : effect db db
| effect_add_user new :
    ~ In (User.email new) (map User.email (users db)) ->
    User.id new = next_rowid (map User.id (users db)) ->
    effect db {| users := users db ++ [new]; notes := notes db |}
| effect_add_note n u :
    In u (users db) ->
    NoteDB.user_id n = User.id u ->
    NoteDB.id n = next_rowid (map NoteDB.id (notes db)) ->
    effect db {| users := users db; notes := notes db ++ [n] |}
| effect_delete_notes f :
    effect db {| users := users db; notes := filter f (notes db) |}.

Lemma register_effect
    (pwd_ctx : CryptContext.t) (utcnow : datetime) (salt : string)
    (user : UserCreate.t) (db : Session) :
  effect db (snd (register pwd_ctx utcnow salt user db)).
Proof.
  rewrite register_run.
  destruct (first_user_by_email (UserCreate.email user) db) eqn:E; simpl.
  - constructor.
  - destruct (CryptContext.hash pwd_ctx salt (UserCreate.password user)); simpl;
      [|constructor].
    apply effect_add_user; simpl; [|reflexivity].
    apply first_user_by_email_none. exact E.
Qed.

Lemma login_effect
    (pwd_ctx : CryptContext.t) (user : UserCreate.t) (Authorize : AuthJWT.t)
    (db : Session) :
  effect db (snd (login pwd_ctx user Authorize db)).
Proof.
  unfold login, bind, query_user_by_email.
  destruct (first_user_by_email (UserCreate.email user) db) as [u|];
    [destruct (verify_password _ _ _)|]; constructor.
Qed.

Lemma create_note_effect
    (utcnow : datetime) (note : NoteIn.t) (Authorize : AuthJWT.t) (db : Session) :
  effect db (snd (create_note utcnow note Authorize db)).
Proof.
  unfold create_note, jwt_required, bind, query_user_by_email.
  destruct (AuthJWT.jwt_required Authorize) as [[status_code message]|]; simpl;
    [constructor|].
  destruct (first_user_by_email _ db) as [u|] eqn:E; simpl; [|constructor].
  apply first_user_by_email_some in E. destruct E as [Hin _].
  apply (effect_add_note db _ u); [exact Hin | reflexivity | reflexivity].
Qed.

Lemma get_notes_effect (Authorize : AuthJWT.t) (db : Session) :
  effect db (snd (get_notes Authorize db)).
Proof.
  unfold get_notes, jwt_required, bind, query_user_by_email.
  destruct (AuthJWT.jwt_required Authorize) as [[status_code message]|]; simpl;
    [constructor|].
  destruct (first_user_by_email _ db) as [u|]; simpl; constructor.
Qed.

Lemma get_note_effect (note_id : Z) (Authorize : AuthJWT.t) (db : Session) :
  effect db (snd (get_note note_id Authorize db)).
Proof.
  unfold get_note, jwt_required, bind, query_user_by_email, query_note.
  destruct (AuthJWT.jwt_required Authorize) as [[status_code message]|]; simpl;
    [constructor|].
  destruct (first_user_by_email _ db) as [u|]; simpl; [|constructor].
  destruct (sqlite_integer note_id); [|constructor].
  destruct (find _ (notes db)); constructor.
Qed.

Lemma delete_note_effect (note_id : Z) (Authorize : AuthJWT.t) (db : Session) :
  effect db (snd (delete_note note_id Authorize db)).
Proof.
  unfold delete_note, jwt_required, bind, query_user_by_email, query_note.
  destruct (AuthJWT.jwt_required Authorize) as [[status_code message]|]; simpl;
    [constructor|].
  destruct (first_user_by_email _ db) as [u|]; simpl; [|constructor].
  destruct (sqlite_integer note_id); [|constructor].
  destruct (find _ (notes db)); simpl; constructor.
Qed.

Lemma parse_UserCreate_pure
    (EmailStr : string -> option string) (email password : string) (db : Session) :
  snd (parse_UserCreate EmailStr email password db) = db.
Proof.
  unfold parse_UserCreate.
  destruct (EmailStr email); [destruct (constr_min_length 6 password)|]; reflexivity.
Qed.

Lemma parse_NoteIn_pure (title content : string) (db : Session) :
  snd (parse_NoteIn title content db) = db.
Proof.
  unfold parse_NoteIn.
  destruct (constr_min_length 1 title && constr_min_length 1 content); reflexivity.
Qed.

Lemma app_effect
    (pwd_ctx : CryptContext.t) (EmailStr : string -> option string)
    (req : Request) (db : Session) :
  effect db (snd (app pwd_ctx EmailStr req db)).
Proof.
  destruct req; unfold app.
  - apply (snd_bind_pure (effect db));
      [apply parse_UserCreate_pure | constructor |].
    intros a _. rewrite snd_bind1. apply register_effect.
  - apply (snd_bind_pure (effect db)); [apply Depends_pure | constructor |].
    intros Authorize0 _.
    apply (snd_bind_pure (effect db));
      [apply parse_UserCreate_pure | constructor |].
    intros a _. rewrite snd_bind1. apply login_effect.
  - apply (snd_bind_pure (effect db)); [apply Depends_pure | constructor |].
    intros Authorize0 _.
    apply (snd_bind_pure (effect db));
      [apply parse_NoteIn_pure | constructor |].
    intros a _. rewrite snd_bind1. apply create_note_effect.
  - apply (snd_bind_pure (effect db)); [apply Depends_pure | constructor |].
    intros Authorize0 _. rewrite snd_bind1. apply get_notes_effect.
  - apply (snd_bind_pure (effect db)); [apply Depends_pure | constructor |].
    intros Authorize0 _. rewrite snd_bind1. apply get_note_effect.
  - apply (snd_bind_pure (effect db)); [apply Depends_pure | constructor |].
    intros Authorize0 _. rewrite snd_bind1. apply delete_note_effect.
Qed.

Lemma NoDup_map_filter {A B} (g : A -> B) (f : A -> bool) (l : list A) :
  NoDup (map g l) -> NoDup (map g (filter f l)).
Proof.
  induction l as [|a l IH]; simpl; intros H; [constructor|].
  inversion H as [|? ? Hnotin Hnd]; subst.
  destruct (f a); simpl; [|apply IH; exact Hnd].
  constructor; [|apply IH; exact Hnd].
  intros Hin. apply Hnotin. apply in_map_iff in Hin.
  destruct Hin as [x [Hx Hin]]. apply filter_In in Hin.
  rewrite <- Hx. apply in_map. tauto.
Qed.

Lemma effect_store_inv (db db' : Session) :
  effect db db' -> store_inv db -> store_inv db' /\ users_kept db db'.
Proof.
  intros Heff [Hemails Howner Huids Hnids].
  destruct Heff as [|new Hfresh Hid|n u Hu Hown Hid|f].
  - split; [constructor; assumption|]. exists []. symmetry. apply app_nil_r.
  - split; [|exists [new]; reflexivity].
    constructor.
    + unfold emails_unique. simpl. rewrite map_app. simpl.
      apply NoDup_snoc; assumption.
    + intros n Hn. destruct (Howner n Hn) as [u [Hu Hun]].
      exists u. simpl. rewrite in_app_iff. tauto.
    + unfold user_ids_unique. simpl. rewrite map_app. simpl.
      apply NoDup_snoc; [assumption|]. rewrite Hid. apply next_rowid_fresh.
    + exact Hnids.
  - split; [|exists []; symmetry; apply app_nil_r].
    constructor; try assumption.
    + intros m Hm. simpl in Hm. apply in_app_iff in Hm.
      destruct Hm as [Hm|[<-|[]]]; [apply Howner; exact Hm|].
      exists u. simpl. split; [exact Hu | symmetry; exact Hown].
    + unfold note_ids_unique. simpl. rewrite map_app. simpl.
      apply NoDup_snoc; [assumption|]. rewrite Hid. apply next_rowid_fresh.
  - split; [|exists []; symmetry; apply app_nil_r].
    constructor; try assumption.
    + intros m Hm. simpl in Hm. apply filter_In in Hm.
      apply Howner. tauto.
    + unfold note_ids_unique. simpl. apply NoDup_map_filter. exact Hnids.
Qed.

Lemma empty_db_store_inv : store_inv empty_db.
Proof.
  constructor.
  - constructor.
  - intros n [].
  - constructor.
  - constructor.
Qed.

(** X12.  Every store that a sequence of requests leads to from the
    empty schema satisfies the invariants: emails are pairwise distinct,
    every note has its owner in [users], and the ids of each table are
    pairwise distinct. *)
Lemma reachable_store_inv
    (pwd_ctx : CryptContext.t) (EmailStr : string -> option string) (db : Session) :
  reachable pwd_ctx EmailStr db -> store_inv db.
Proof.
  induction 1 as [|req db Hreach IH].
  - apply empty_db_store_inv.
  - apply (effect_store_inv db); [apply app_effect | exact IH].
Qed.

(** C9.  Every request served on a store that satisfies the invariants
    leaves one that satisfies them: no two rows of [users] share an
    email, the [user_id] of every note is the id of a row of [users],
    and the ids of each table are pairwise distinct.  The rows of
    [users] before the request are all still there, unchanged and in
    place, followed by the rows the request added. *)
Theorem app_preserves_store_inv
    (pwd_ctx : CryptContext.t) (EmailStr : string -> option string)
    (req : Request) (db : Session) :
  store_inv db ->
  store_inv (snd (app pwd_ctx EmailStr req db)) /\
  users_kept db (snd (app pwd_ctx EmailStr req db)).
Proof.
  intros Hinv. apply effect_store_inv; [apply app_effect | exact Hinv].
Qed.

Lemma app_preserves_store_inv_witness :
  store_inv empty_db /\
  store_inv (snd (app Fixture.pwd_ctx Fixture.EmailStr
                    (POST_auth_register 100 "salt" "a@x.com" "secret1") empty_db)) /\
  users (snd (app Fixture.pwd_ctx Fixture.EmailStr
                (POST_auth_register 100 "salt" "a@x.com" "secret1") empty_db))
    = [Fixture.alice].
Proof.
  split; [exact empty_db_store_inv|]. split.
  - exact (proj1 (app_preserves_store_inv Fixture.pwd_ctx Fixture.EmailStr
                    (POST_auth_register 100 "salt" "a@x.com" "secret1") empty_db
                    empty_db_store_inv)).
  - reflexivity.
Defined.

(** ** The end-to-end scenario *)

(** Register a@x.com / secret1, log in, post a note, list, delete it and
    ask for it again, with the stand-ins of [Fixture]. *)
Example end_to_end_scenario :
  let run := app Fixture.pwd_ctx Fixture.EmailStr in
  let Authorize := Fixture.bearer "a@x.com" in
  let db1 := snd (run (POST_auth_register 100 "salt" "a@x.com" "secret1") empty_db) in
  let db2 := snd (run (POST_notes 110 "todo" "milk" Authorize) db1) in
  let db3 := snd (run (DELETE_notes_id 1 Authorize) db2) in
  fst (run (POST_auth_register 100 "salt" "a@x.com" "secret1") empty_db)
    = inr (UserBody {| UserOut.id := 1; UserOut.email := "a@x.com";
                       UserOut.created_at := 100 |}) /\
  fst (run (POST_auth_login "a@x.com" "secret1" Authorize) db1)
    = inr (TokenBody {| TokenOut.access_token := "jwt:a@x.com";
                        TokenOut.token_type := "bearer" |}) /\
  http_status (fst (run (POST_auth_login "a@x.com" "secret2" Authorize) db1)) = 401 /\
  fst (run (POST_notes 110 "todo" "milk" Authorize) db1)
    = inr (NoteBody (NoteOut.from_orm Fixture.alice_note)) /\
  fst (run (GET_notes Authorize) db2)
    = inr (NotesBody [NoteOut.from_orm Fixture.alice_note]) /\
  fst (run (DELETE_notes_id 1 Authorize) db2)
    = inr (MessageBody "Note deleted successfully") /\
  http_status (fst (run (GET_notes_id 1 Authorize) db3)) = 404 /\
  http_status (fst (run (POST_auth_register 101 "salt" "a@x.com" "secret9") db3)) = 400.
Proof. repeat split; reflexivity. Qed.

(** ** Registration followed by login, given the contract of the hashing
    context *)

Lemma find_app_none {A} (f : A -> bool) (l l' : list A) :
  find f l = None -> find f (l ++ l') = find f l'.
Proof.
  induction l as [|a l IH]; simpl; [reflexivity|].
  destruct (f a); [discriminate | exact IH].
Qed.

Section PasswordContract.

Variable pwd_ctx : CryptContext.t.

(** What main.py relies on passlib for: a hash the context returned for
    a password verifies against that password. *)
Hypothesis verify_hash :
  forall salt p hashed,
    CryptContext.hash pwd_ctx salt p = Some hashed ->
    CryptContext.verify pwd_ctx p hashed = true.

(** X11.  Given that the hashing context verifies a password against
    the hash it returned for it, a [login] with the credentials of a
    [register] that just succeeded returns the bearer token for that
    email. *)
Lemma register_then_login
    (utcnow : datetime) (salt : string) (user : UserCreate.t)
    (Authorize : AuthJWT.t) (db : Session) (new : User.t) :
  fst (register pwd_ctx utcnow salt user db) = inr new ->
  fst (login pwd_ctx user Authorize (snd (register pwd_ctx utcnow salt user db)))
    = inr {| TokenOut.access_token :=
               AuthJWT.create_access_token Authorize (UserCreate.email user);
             TokenOut.token_type := "bearer" |}.
Proof.
  rewrite register_run.
  destruct (first_user_by_email (UserCreate.email user) db) eqn:Hnot;
    [discriminate|].
  destruct (CryptContext.hash pwd_ctx salt (UserCreate.password user))
    as [hashed|] eqn:Hhash; [|discriminate].
  intros _. cbv zeta. cbn [snd].
  unfold login, bind, query_user_by_email, first_user_by_email. cbn [users].
  unfold first_user_by_email in Hnot. rewrite (find_app_none _ _ _ Hnot). simpl.
  rewrite String.eqb_refl. simpl.
  unfold verify_password. rewrite (verify_hash _ _ _ Hhash). reflexivity.
Qed.

End PasswordContract.

(** * Further properties of the endpoints *)

(** ** More on lists *)

Lemma find_app_some {A} (f : A -> bool) (l l' : list A) (x : A) :
  find f l = Some x -> find f (l ++ l') = Some x.
Proof.
  induction l as [|a l IH]; simpl; [discriminate|].
  destruct (f a); [tauto | exact IH].
Qed.

Lemma filter_swap {A} (f g : A -> bool) (l : list A) :
  filter f (filter g l) = filter g (filter f l).
Proof.
  induction l as [|a l IH]; simpl; [reflexivity|].
  destruct (g a) eqn:Eg, (f a) eqn:Ef; simpl; rewrite ?Eg, ?Ef, IH; reflexivity.
Qed.

Lemma filter_absorb {A} (f g : A -> bool) (l : list A) :
  (forall x, In x l -> f x = true -> g x = true) ->
  filter f (filter g l) = filter f l.
Proof.
  induction l as [|a l IH]; intros H; simpl; [reflexivity|].
  assert (IH' : filter f (filter g l) = filter f l)
    by (apply IH; intros x Hx; apply H; right; exact Hx).
  destruct (f a) eqn:Ef.
  - rewrite (H a (or_introl eq_refl) Ef). simpl. rewrite Ef, IH'. reflexivity.
  - destruct (g a); simpl; rewrite ?Ef; exact IH'.
Qed.

Lemma NoDup_map_inj {A B} (g : A -> B) (l : list A) (a b : A) :
  NoDup (map g l) -> In a l -> In b l -> g a = g b -> a = b.
Proof.
  induction l as [|x l IH]; simpl; [tauto|].
  intros Hnd Ha Hb Heq. inversion Hnd as [|? ? Hnotin Hnd']; subst.
  destruct Ha as [->|Ha], Hb as [->|Hb].
  - reflexivity.
  - exfalso. apply Hnotin. rewrite Heq. apply in_map. exact Hb.
  - exfalso. apply Hnotin. rewrite <- Heq. apply in_map. exact Ha.
  - apply IH; assumption.
Qed.

(** ** Creating a note *)

Lemma create_note_run
    (utcnow : datetime) (note : NoteIn.t) (Authorize : AuthJWT.t) (A : User.t)
    (db : Session) :
  authenticated_as Authorize A db ->
  create_note utcnow note Authorize db =
    let db_note :=
      {| NoteDB.id := next_rowid (map NoteDB.id (notes db));
         NoteDB.title := NoteIn.title note;
         NoteDB.content := NoteIn.content note;
         NoteDB.user_id := User.id A;
         NoteDB.created_at := utcnow;
         NoteDB.updated_at := utcnow |} in
    (inr db_note, {| users := users db; notes := notes db ++ [db_note] |}).
Proof.
  intros [Hjwt Hres].
  unfold create_note, jwt_required, bind, query_user_by_email.
  rewrite Hjwt. simpl. rewrite Hres. reflexivity.
Qed.

(** A note whose id is above every id of the table is the one a lookup
    by that id finds after it was appended. *)
Lemma find_appended_note (n : NoteDB.t) (l : list NoteDB.t) :
  NoteDB.id n = next_rowid (map NoteDB.id l) ->
  find (fun m => (NoteDB.id m =? NoteDB.id n) && (NoteDB.user_id m =? NoteDB.user_id n))
       (l ++ [n]) = Some n.
Proof.
  intros Hid. rewrite find_app_none.
  - simpl. rewrite !Z.eqb_refl. reflexivity.
  - apply find_all_false. intros m Hm. apply andb_false_iff. left.
    apply Z.eqb_neq. intros E.
    apply (next_rowid_fresh (map NoteDB.id l)).
    rewrite <- Hid, <- E. apply in_map. exact Hm.
Qed.

(** X1.  For a caller resolved to the user [A], [create_note] appends
    one row to [notes] and returns it: the row has the title and the
    content of the request, [A]'s id as [user_id], and an id no row of
    the table had.  [users] is untouched, and [get_note] with the
    returned id (an integer the driver binds, as every id the table
    gives is) then gives that row back to [A]. *)
Theorem create_note_then_get_note
    (utcnow : datetime) (note : NoteIn.t) (Authorize : AuthJWT.t) (A : User.t)
    (db : Session) :
  authenticated_as Authorize A db ->
  exists n : NoteDB.t,
    create_note utcnow note Authorize db
      = (inr n, {| users := users db; notes := notes db ++ [n] |}) /\
    NoteDB.title n = NoteIn.title note /\
    NoteDB.content n = NoteIn.content note /\
    owned_by A n /\
    ~ In (NoteDB.id n) (map NoteDB.id (notes db)) /\
    (sqlite_integer (NoteDB.id n) = true ->
     get_note (NoteDB.id n) Authorize (snd (create_note utcnow note Authorize db))
       = (inr n, snd (create_note utcnow note Authorize db))).
Proof.
  intros Hauth.
  pose proof (create_note_run utcnow note _ _ _ Hauth) as Hrun. cbv zeta in Hrun.
  set (n := {| NoteDB.id := next_rowid (map NoteDB.id (notes db));
               NoteDB.title := NoteIn.title note;
               NoteDB.content := NoteIn.content note;
               NoteDB.user_id := User.id A;
               NoteDB.created_at := utcnow;
               NoteDB.updated_at := utcnow |}) in Hrun.
  exists n. rewrite Hrun.
  split; [reflexivity|]. split; [reflexivity|]. split; [reflexivity|].
  split; [reflexivity|]. split.
  - apply next_rowid_fresh.
  - intros Hfit.
    change (get_note (NoteDB.id n) Authorize
              {| users := users db; notes := notes db ++ [n] |}
            = (inr n, {| users := users db; notes := notes db ++ [n] |})).
    assert (Hauth' : authenticated_as Authorize A
                       {| users := users db; notes := notes db ++ [n] |})
      by exact Hauth.
    rewrite (get_note_run _ _ _ _ Hauth' Hfit). cbn [notes].
    pose proof (find_appended_note n (notes db) eq_refl) as Hf.
    change (NoteDB.user_id n) with (User.id A) in Hf.
    rewrite Hf. reflexivity.
Qed.

Lemma create_note_then_get_note_witness :
  authenticated_as (Fixture.bearer "b@x.com") Fixture.bob Fixture.db /\
  exists n : NoteDB.t,
    fst (create_note 130 {| NoteIn.title := "gift"; NoteIn.content := "book" |}
           (Fixture.bearer "b@x.com") Fixture.db) = inr n /\
    NoteDB.id n = 3 /\ NoteDB.user_id n = 2 /\ NoteDB.title n = "gift" /\
    sqlite_integer (NoteDB.id n) = true /\
    fst (get_note (NoteDB.id n) (Fixture.bearer "b@x.com")
           (snd (create_note 130 {| NoteIn.title := "gift"; NoteIn.content := "book" |}
                   (Fixture.bearer "b@x.com") Fixture.db))) = inr n.
Proof.
  assert (Hauth : authenticated_as (Fixture.bearer "b@x.com") Fixture.bob Fixture.db)
    by (split; reflexivity).
  split; [exact Hauth|].
  destruct (create_note_then_get_note 130
              {| NoteIn.title := "gift"; NoteIn.content := "book" |}
              _ _ _ Hauth) as (n & Hrun & _ & _ & _ & _ & Hget).
  exists n.
  assert (Hn : inr n = fst (create_note 130
              {| NoteIn.title := "gift"; NoteIn.content := "book" |}
              (Fixture.bearer "b@x.com") Fixture.db))
    by (rewrite Hrun; reflexivity).
  simpl in Hn. injection Hn as Hn.
  assert (Hfit : sqlite_integer (NoteDB.id n) = true) by (rewrite Hn; reflexivity).
  split; [rewrite Hrun; reflexivity|].
  split; [rewrite Hn; reflexivity|]. split; [rewrite Hn; reflexivity|].
  split; [rewrite Hn; reflexivity|]. split; [exact Hfit|].
  rewrite (Hget Hfit). reflexivity.
Defined.

(** X2.  After a caller resolved to [A] created a note, the listing of
    [A] is the listing from before followed by the new note, and the
    listing of a caller resolved to a user with another id is the one
    from before. *)
Theorem create_note_listing
    (utcnow : datetime) (note : NoteIn.t) (auA auB : AuthJWT.t) (A B : User.t)
    (db : Session) :
  authenticated_as auA A db ->
  authenticated_as auB B db ->
  exists (n : NoteDB.t) (lA lB : list NoteDB.t),
    fst (create_note utcnow note auA db) = inr n /\
    get_notes auA db = (inr lA, db) /\
    get_notes auB db = (inr lB, db) /\
    fst (get_notes auA (snd (create_note utcnow note auA db))) = inr (lA ++ [n])%list /\
    (User.id B <> User.id A ->
     fst (get_notes auB (snd (create_note utcnow note auA db))) = inr lB).
Proof.
  intros HA HB.
  rewrite (create_note_run utcnow note _ _ _ HA). cbv zeta.
  rewrite (get_notes_run _ _ _ HA), (get_notes_run _ _ _ HB).
  eexists. eexists. eexists.
  split; [reflexivity|]. split; [reflexivity|]. split; [reflexivity|].
  cbn [snd]. split.
  - match goal with |- fst (get_notes _ ?d) = _ =>
      assert (HA' : authenticated_as auA A d) by exact HA
    end.
    rewrite (get_notes_run _ _ _ HA'). cbn [fst notes].
    rewrite filter_app. simpl. rewrite Z.eqb_refl. reflexivity.
  - intros Hne.
    match goal with |- fst (get_notes _ ?d) = _ =>
      assert (HB' : authenticated_as auB B d) by exact HB
    end.
    rewrite (get_notes_run _ _ _ HB'). cbn [fst notes].
    rewrite filter_app. simpl.
    assert (E : (User.id A =? User.id B) = false)
      by (apply Z.eqb_neq; intros E; apply Hne; symmetry; exact E).
    rewrite E. rewrite app_nil_r. reflexivity.
Qed.

Lemma create_note_listing_witness :
  authenticated_as (Fixture.bearer "a@x.com") Fixture.alice Fixture.db /\
  authenticated_as (Fixture.bearer "b@x.com") Fixture.bob Fixture.db /\
  User.id Fixture.bob <> User.id Fixture.alice /\
  exists (n : NoteDB.t) (lA lB : list NoteDB.t),
    fst (create_note 130 {| NoteIn.title := "gift"; NoteIn.content := "book" |}
           (Fixture.bearer "a@x.com") Fixture.db) = inr n /\
    get_notes (Fixture.bearer "a@x.com") Fixture.db = (inr lA, Fixture.db) /\
    get_notes (Fixture.bearer "b@x.com") Fixture.db = (inr lB, Fixture.db) /\
    fst (get_notes (Fixture.bearer "a@x.com")
           (snd (create_note 130 {| NoteIn.title := "gift"; NoteIn.content := "book" |}
                   (Fixture.bearer "a@x.com") Fixture.db)))
      = inr (lA ++ [n])%list /\
    fst (get_notes (Fixture.bearer "b@x.com")
           (snd (create_note 130 {| NoteIn.title := "gift"; NoteIn.content := "book" |}
                   (Fixture.bearer "a@x.com") Fixture.db)))
      = inr lB.
Proof.
  assert (HA : authenticated_as (Fixture.bearer "a@x.com") Fixture.alice Fixture.db)
    by (split; reflexivity).
  assert (HB : authenticated_as (Fixture.bearer "b@x.com") Fixture.bob Fixture.db)
    by (split; reflexivity).
  assert (Hne : User.id Fixture.bob <> User.id Fixture.alice)
    by (simpl; discriminate).
  split; [exact HA|]. split; [exact HB|]. split; [exact Hne|].
  destruct (create_note_listing 130
              {| NoteIn.title := "gift"; NoteIn.content := "book" |}
              _ _ _ _ Fixture.db HA HB)
    as (n & lA & lB & H1 & H2 & H3 & H4 & H5).
  exists n, lA, lB. repeat split; try assumption. exact (H5 Hne).
Defined.

(** ** Reading one note *)

(** X3.  For a caller resolved to [A], when the store has a note with
    the requested id that [A] owns (an id the driver binds, as every id
    the table holds is), [get_note] returns a row of [notes] with that
    id owned by [A], does not change the store, and the route answers
    with the [NoteOut] of that row; on a store whose note ids are
    pairwise distinct the row returned is that note. *)
Theorem get_note_returns_owned
    (pwd_ctx : CryptContext.t) (EmailStr : string -> option string)
    (note_id : Z) (Authorize : AuthJWT.t) (A : User.t) (db : Session)
    (n : NoteDB.t) :
  authenticated_as Authorize A db ->
  sqlite_integer note_id = true ->
  In n (notes db) -> NoteDB.id n = note_id -> owned_by A n ->
  exists m : NoteDB.t,
    get_note note_id Authorize db = (inr m, db) /\
    In m (notes db) /\ NoteDB.id m = note_id /\ owned_by A m /\
    (note_ids_unique db -> m = n) /\
    app pwd_ctx EmailStr (GET_notes_id note_id Authorize) db
      = (inr (NoteBody (NoteOut.from_orm m)), db).
Proof.
  intros Hauth Hfit Hin Hid Hown.
  destruct (owned_note_find A note_id (notes db)) as [m [Hf [Hm [Hmid Hmown]]]].
  { exists n. tauto. }
  assert (Hrun : get_note note_id Authorize db = (inr m, db))
    by (rewrite (get_note_run _ _ _ _ Hauth Hfit), Hf; reflexivity).
  exists m. split; [exact Hrun|]. repeat split; try assumption.
  - intros Hpk. apply (NoDup_map_inj NoteDB.id (notes db)); try assumption.
    congruence.
  - unfold app. rewrite app_built_dependency. unfold bind. rewrite Hrun.
    reflexivity.
Qed.

Lemma get_note_returns_owned_witness :
  authenticated_as (Fixture.bearer "b@x.com") Fixture.bob Fixture.db /\
  In Fixture.bob_note (notes Fixture.db) /\
  owned_by Fixture.bob Fixture.bob_note /\
  exists m : NoteDB.t,
    get_note 2 (Fixture.bearer "b@x.com") Fixture.db = (inr m, Fixture.db) /\
    NoteDB.id m = 2 /\ owned_by Fixture.bob m.
Proof.
  assert (Hauth : authenticated_as (Fixture.bearer "b@x.com") Fixture.bob Fixture.db)
    by (split; reflexivity).
  assert (Hin : In Fixture.bob_note (notes Fixture.db)) by (simpl; tauto).
  assert (Hown : owned_by Fixture.bob Fixture.bob_note) by reflexivity.
  split; [exact Hauth|]. split; [exact Hin|]. split; [exact Hown|].
  destruct (get_note_returns_owned Fixture.pwd_ctx Fixture.EmailStr 2 _ _ _ _
              Hauth eq_refl Hin eq_refl Hown) as (m & H1 & _ & H3 & H4 & _).
  exists m. tauto.
Defined.

(** ** Deleting a note, seen through the listings *)

(** X4.  After a caller resolved to [A] deleted a note, the listing of
    [A] is the listing from before without the notes of that id, and a
    second [delete_note] of the same id raises the 404 and changes
    nothing.  On a store whose note ids are pairwise distinct, the
    listing of a caller resolved to a user with another id is the one
    from before. *)
Theorem delete_note_listing
    (note_id : Z) (auA auB : AuthJWT.t) (A B : User.t) (db : Session) :
  authenticated_as auA A db ->
  authenticated_as auB B db ->
  fst (delete_note note_id auA db) = inr "Note deleted successfully" ->
  exists lA lB : list NoteDB.t,
    get_notes auA db = (inr lA, db) /\
    get_notes auB db = (inr lB, db) /\
    fst (get_notes auA (snd (delete_note note_id auA db)))
      = inr (filter (fun n => negb (NoteDB.id n =? note_id)) lA) /\
    (note_ids_unique db -> User.id B <> User.id A ->
     fst (get_notes auB (snd (delete_note note_id auA db))) = inr lB) /\
    delete_note note_id auA (snd (delete_note note_id auA db))
      = (inl (HTTPException 404 "Note not found or you are not owner"),
         snd (delete_note note_id auA db)).
Proof.
  intros HA HB.
  destruct (sqlite_integer note_id) eqn:Hfit.
  2:{ destruct (note_id_overflow_run note_id auA A db HA Hfit) as [_ Hdel].
      rewrite Hdel. discriminate. }
  rewrite (delete_note_run _ _ _ _ HA Hfit).
  rewrite (get_notes_run _ _ _ HA), (get_notes_run _ _ _ HB).
  destruct (find _ (notes db)) as [n|] eqn:E; [|discriminate].
  intros _. apply find_some in E. destruct E as [Hin Hb].
  apply andb_true_iff in Hb. rewrite !Z.eqb_eq in Hb. destruct Hb as [Hid Hown].
  eexists. eexists. split; [reflexivity|]. split; [reflexivity|].
  cbn [snd]. rewrite Hid.
  set (db' := {| users := users db;
                 notes := filter (fun m => negb (NoteDB.id m =? note_id)) (notes db) |}).
  assert (HA' : authenticated_as auA A db') by exact HA.
  assert (HB' : authenticated_as auB B db') by exact HB.
  split; [|split].
  - rewrite (get_notes_run _ _ _ HA'). cbn [fst]. f_equal. apply filter_swap.
  - intros Hpk Hne. rewrite (get_notes_run _ _ _ HB'). cbn [fst]. f_equal.
    apply filter_absorb. intros x Hx Hxb. apply Z.eqb_eq in Hxb.
    apply negb_true_iff, Z.eqb_neq. intros Hxid. apply Hne.
    assert (x = n)
      by (apply (NoDup_map_inj NoteDB.id (notes db)); try assumption; congruence).
    subst x. congruence.
  - rewrite (delete_note_run _ _ _ _ HA' Hfit).
    rewrite no_owned_note_find; [reflexivity|].
    intros m Hm Hmid. apply filter_In in Hm. destruct Hm as [_ Hm].
    apply negb_true_iff, Z.eqb_neq in Hm. contradiction.
Qed.

Lemma delete_note_listing_witness :
  authenticated_as (Fixture.bearer "a@x.com") Fixture.alice Fixture.db /\
  authenticated_as (Fixture.bearer "b@x.com") Fixture.bob Fixture.db /\
  fst (delete_note 1 (Fixture.bearer "a@x.com") Fixture.db)
    = inr "Note deleted successfully" /\
  fst (get_notes (Fixture.bearer "a@x.com")
         (snd (delete_note 1 (Fixture.bearer "a@x.com") Fixture.db))) = inr [] /\
  fst (get_notes (Fixture.bearer "b@x.com")
         (snd (delete_note 1 (Fixture.bearer "a@x.com") Fixture.db)))
    = inr [Fixture.bob_note].
Proof.
  assert (HA : authenticated_as (Fixture.bearer "a@x.com") Fixture.alice Fixture.db)
    by (split; reflexivity).
  assert (HB : authenticated_as (Fixture.bearer "b@x.com") Fixture.bob Fixture.db)
    by (split; reflexivity).
  assert (Hdel : fst (delete_note 1 (Fixture.bearer "a@x.com") Fixture.db)
                 = inr "Note deleted successfully") by reflexivity.
  assert (Hpk : note_ids_unique Fixture.db).
  { unfold note_ids_unique. simpl.
    repeat constructor; simpl; intros H; repeat destruct H as [H|H];
      try discriminate H; exact H. }
  split; [exact HA|]. split; [exact HB|]. split; [exact Hdel|].
  destruct (delete_note_listing 1 _ _ _ _ Fixture.db HA HB Hdel)
    as (lA & lB & H1 & H2 & H3 & H4 & _).
  injection H1 as <-. injection H2 as <-.
  split; [exact H3|]. apply (H4 Hpk). simpl. discriminate.
Defined.

(** ** Isolation between users *)

(** X5.  A note a caller resolved to [A] has just created cannot be read
    or deleted by a caller resolved to a user with another id:
    [get_note] and [delete_note] with the id of the new note both raise
    and leave the store as the creation left it, and what they raise is
    the 404 (the id being an integer the driver binds, as every id the
    table gives is). *)
Theorem created_note_hidden_from_others
    (utcnow : datetime) (note : NoteIn.t) (auA auB : AuthJWT.t) (A B : User.t)
    (db : Session) :
  authenticated_as auA A db ->
  authenticated_as auB B db ->
  User.id B <> User.id A ->
  exists n : NoteDB.t,
    fst (create_note utcnow note auA db) = inr n /\
    (exists e, get_note (NoteDB.id n) auB (snd (create_note utcnow note auA db))
                 = (inl e, snd (create_note utcnow note auA db))) /\
    (exists e, delete_note (NoteDB.id n) auB (snd (create_note utcnow note auA db))
                 = (inl e, snd (create_note utcnow note auA db))) /\
    (sqlite_integer (NoteDB.id n) = true ->
     get_note (NoteDB.id n) auB (snd (create_note utcnow note auA db))
       = (inl (HTTPException 404 "Note not found"),
          snd (create_note utcnow note auA db)) /\
     delete_note (NoteDB.id n) auB (snd (create_note utcnow note auA db))
       = (inl (HTTPException 404 "Note not found or you are not owner"),
          snd (create_note utcnow note auA db))).
Proof.
  intros HA HB Hne.
  rewrite (create_note_run utcnow note _ _ _ HA). cbv zeta. cbn [fst snd].
  eexists. split; [reflexivity|].
  match goal with |- (exists e, get_note ?i _ ?d = _) /\ _ =>
    assert (HB' : authenticated_as auB B d) by exact HB;
    assert (H404 : sqlite_integer i = true ->
              get_note i auB d = (inl (HTTPException 404 "Note not found"), d) /\
              delete_note i auB d
                = (inl (HTTPException 404 "Note not found or you are not owner"), d));
    [|destruct (sqlite_integer i) eqn:Hfit]
  end.
  - intros Hfit.
    rewrite (get_note_run _ _ _ _ HB' Hfit), (delete_note_run _ _ _ _ HB' Hfit).
    rewrite no_owned_note_find; [split; reflexivity|].
    cbn [notes NoteDB.id]. intros m Hm Hmid Hmown. apply in_app_iff in Hm.
    destruct Hm as [Hm|[<-|[]]].
    + apply (next_rowid_fresh (map NoteDB.id (notes db))).
      rewrite <- Hmid. apply in_map. exact Hm.
    + unfold owned_by in Hmown. simpl in Hmown. apply Hne. symmetry. exact Hmown.
  - destruct (H404 eq_refl) as [Hget Hdel].
    split; [eexists; exact Hget|]. split; [eexists; exact Hdel|].
    intros _. split; assumption.
  - destruct (note_id_overflow_run _ auB B _ HB' Hfit) as [Hget Hdel].
    split; [eexists; exact Hget|]. split; [eexists; exact Hdel|].
    discriminate.
Qed.

Lemma created_note_hidden_from_others_witness :
  authenticated_as (Fixture.bearer "a@x.com") Fixture.alice Fixture.db /\
  authenticated_as (Fixture.bearer "b@x.com") Fixture.bob Fixture.db /\
  User.id Fixture.bob <> User.id Fixture.alice /\
  sqlite_integer 3 = true /\
  fst (get_note 3 (Fixture.bearer "b@x.com")
         (snd (create_note 130 {| NoteIn.title := "gift"; NoteIn.content := "book" |}
                 (Fixture.bearer "a@x.com") Fixture.db)))
    = inl (HTTPException 404 "Note not found").
Proof.
  assert (HA : authenticated_as (Fixture.bearer "a@x.com") Fixture.alice Fixture.db)
    by (split; reflexivity).
  assert (HB : authenticated_as (Fixture.bearer "b@x.com") Fixture.bob Fixture.db)
    by (split; reflexivity).
  assert (Hne : User.id Fixture.bob <> User.id Fixture.alice)
    by (simpl; discriminate).
  split; [exact HA|]. split; [exact HB|]. split; [exact Hne|].
  split; [reflexivity|].
  destruct (created_note_hidden_from_others 130
              {| NoteIn.title := "gift"; NoteIn.content := "book" |}
              _ _ _ _ Fixture.db HA HB Hne) as (n & Hn & _ & _ & H404).
  simpl in Hn. injection Hn as <-.
  exact (f_equal fst (proj1 (H404 eq_refl))).
Defined.

(** X6.  On a store whose user ids are pairwise distinct, two accepted
    tokens with different subjects resolve to users with different ids,
    and no note is in the listings of both. *)
Theorem listings_disjoint
    (auA auB : AuthJWT.t) (A B : User.t) (db : Session) :
  user_ids_unique db ->
  authenticated_as auA A db ->
  authenticated_as auB B db ->
  AuthJWT.get_jwt_subject auA <> AuthJWT.get_jwt_subject auB ->
  User.id A <> User.id B /\
  forall lA lB,
    get_notes auA db = (inr lA, db) ->
    get_notes auB db = (inr lB, db) ->
    forall n, In n lA -> ~ In n lB.
Proof.
  intros Hpk HA HB Hsub.
  assert (Hne : User.id A <> User.id B).
  { destruct HA as [_ HA], HB as [_ HB].
    apply first_user_by_email_some in HA, HB.
    destruct HA as [HinA HeA], HB as [HinB HeB].
    intros Hid. apply Hsub. rewrite <- HeA, <- HeB. f_equal.
    apply (NoDup_map_inj User.id (users db)); assumption. }
  split; [exact Hne|].
  intros lA lB HlA HlB n HnA HnB.
  rewrite (get_notes_run _ _ _ HA) in HlA. rewrite (get_notes_run _ _ _ HB) in HlB.
  injection HlA as <-. injection HlB as <-.
  apply filter_In in HnA, HnB. rewrite Z.eqb_eq in HnA, HnB.
  apply Hne. destruct HnA as [_ <-], HnB as [_ <-]. reflexivity.
Qed.

Lemma listings_disjoint_witness :
  user_ids_unique Fixture.db /\
  authenticated_as (Fixture.bearer "a@x.com") Fixture.alice Fixture.db /\
  authenticated_as (Fixture.bearer "b@x.com") Fixture.bob Fixture.db /\
  User.id Fixture.alice <> User.id Fixture.bob.
Proof.
  assert (Hpk : user_ids_unique Fixture.db).
  { unfold user_ids_unique. simpl.
    repeat constructor; simpl; intros H; repeat destruct H as [H|H];
      try discriminate H; exact H. }
  assert (HA : authenticated_as (Fixture.bearer "a@x.com") Fixture.alice Fixture.db)
    by (split; reflexivity).
  assert (HB : authenticated_as (Fixture.bearer "b@x.com") Fixture.bob Fixture.db)
    by (split; reflexivity).
  split; [exact Hpk|]. split; [exact HA|]. split; [exact HB|].
  apply (listings_disjoint _ _ _ _ Fixture.db Hpk HA HB). simpl. discriminate.
Defined.

(** ** A token that [jwt_required] rejects *)

(** X7.  When [jwt_required] raises, each of the four protected
    endpoints ends with that [AuthJWTException] before any query: the
    result does not depend on the store, the store is left as it was,
    and the registered handler turns the exception into an
    [HTTPException] with the same status and message. *)
Theorem rejected_token_no_access
    (Authorize : AuthJWT.t) (status_code : Z) (message : string)
    (utcnow : datetime) (note : NoteIn.t) (note_id : Z) (db : Session) :
  AuthJWT.jwt_required Authorize = Some (status_code, message) ->
  create_note utcnow note Authorize db
    = (inl (AuthJWTException status_code message), db) /\
  get_notes Authorize db = (inl (AuthJWTException status_code message), db) /\
  get_note note_id Authorize db
    = (inl (AuthJWTException status_code message), db) /\
  delete_note note_id Authorize db
    = (inl (AuthJWTException status_code message), db) /\
  authjwt_exception_handler (AuthJWTException status_code message)
    = HTTPException status_code message.
Proof.
  intros Hjwt.
  unfold create_note, get_notes, get_note, delete_note, jwt_required, bind.
  rewrite Hjwt. repeat split; reflexivity.
Qed.

Lemma rejected_token_no_access_witness :
  let anonymous :=
    {| AuthJWT.jwt_required := Some (401, "Missing Authorization Header");
       AuthJWT.get_jwt_subject := "a@x.com";
       AuthJWT.create_access_token := fun s => s |} in
  get_notes anonymous Fixture.db
    = (inl (AuthJWTException 401 "Missing Authorization Header"), Fixture.db) /\
  delete_note 1 anonymous Fixture.db
    = (inl (AuthJWTException 401 "Missing Authorization Header"), Fixture.db).
Proof.
  intros anonymous.
  destruct (rejected_token_no_access anonymous 401 "Missing Authorization Header"
              0 {| NoteIn.title := "t"; NoteIn.content := "c" |} 1 Fixture.db eq_refl)
    as (_ & Hl & _ & Hd & _).
  split; [exact Hl | exact Hd].
Defined.

(** ** The body of POST /notes/ *)

Lemma constr_min_length_1 (s : string) :
  constr_min_length 1 s = false <-> len s = 0%nat.
Proof.
  unfold constr_min_length. rewrite Nat.leb_gt. lia.
Qed.

Lemma constr_min_length_1_nonempty (s : string) :
  constr_min_length 1 s = true -> s <> "".
Proof.
  intros H ->. discriminate H.
Qed.

Lemma create_note_cases
    (utcnow : datetime) (note : NoteIn.t) (Authorize : AuthJWT.t) (db : Session) :
  (exists e, create_note utcnow note Authorize db = (inl e, db) /\
             e <> RequestValidationError) \/
  (exists n, create_note utcnow note Authorize db
               = (inr n, {| users := users db; notes := notes db ++ [n] |}) /\
             NoteDB.title n = NoteIn.title note /\
             NoteDB.content n = NoteIn.content note).
Proof.
  unfold create_note, jwt_required, bind, query_user_by_email.
  destruct (AuthJWT.jwt_required Authorize) as [[status_code message]|]; simpl.
  { left. eexists. split; [reflexivity | discriminate]. }
  destruct (first_user_by_email _ db) as [u|]; simpl.
  - right. eexists. split; [reflexivity|]. split; reflexivity.
  - left. eexists. split; [reflexivity | discriminate].
Qed.

(** X8.  POST /notes/ answers with the validation error exactly when
    its [AuthJWT] dependency was built (no Authorization header, or a
    well-formed one, whatever the token is worth) and the title or the
    content of the body has no character; the store is then left as it
    was.  A malformed Authorization header is answered with the
    [InvalidHeaderError] of the constructor, whatever the body is, and
    the store is left as it was. *)
Theorem post_notes_422_iff_empty_field
    (pwd_ctx : CryptContext.t) (EmailStr : string -> option string)
    (utcnow : datetime) (title content : string) (Authorize : Depends_AuthJWT)
    (db : Session) :
  (fst (app pwd_ctx EmailStr (POST_notes utcnow title content Authorize) db)
     = inl RequestValidationError
   <-> (exists built, Authorize = Built built) /\
       (len title = 0%nat \/ len content = 0%nat)) /\
  (forall built,
     Authorize = Built built ->
     len title = 0%nat \/ len content = 0%nat ->
     app pwd_ctx EmailStr (POST_notes utcnow title content Authorize) db
       = (inl RequestValidationError, db)) /\
  (forall message,
     Authorize = InvalidHeaderError message ->
     app pwd_ctx EmailStr (POST_notes utcnow title content Authorize) db
       = (inl (AuthJWTException 422 message), db)).
Proof.
  assert (Hbad : forall built,
            Authorize = Built built ->
            len title = 0%nat \/ len content = 0%nat ->
            app pwd_ctx EmailStr (POST_notes utcnow title content Authorize) db
              = (inl RequestValidationError, db)).
  { intros built -> H. unfold app. rewrite app_built_dependency.
    unfold bind, parse_NoteIn.
    assert (E : constr_min_length 1 title && constr_min_length 1 content = false).
    { apply andb_false_iff.
      destruct H as [H|H]; [left | right]; apply constr_min_length_1; exact H. }
    rewrite E. reflexivity. }
  split; [split|split; [exact Hbad|]].
  - destruct Authorize as [built|message]; [|discriminate].
    intros Hr. split; [exists built; reflexivity|].
    destruct (constr_min_length 1 title) eqn:Et;
      [|left; apply constr_min_length_1; exact Et].
    destruct (constr_min_length 1 content) eqn:Ec;
      [|right; apply constr_min_length_1; exact Ec].
    exfalso. revert Hr. unfold app. rewrite app_built_dependency.
    unfold bind, parse_NoteIn. rewrite Et, Ec. simpl.
    destruct (create_note_cases utcnow
                {| NoteIn.title := title; NoteIn.content := content |} built db)
      as [[e [-> He]]|[n [-> _]]]; simpl; [|discriminate].
    intros H. injection H as H. exact (He H).
  - intros [[built Hb] H]. rewrite (Hbad built Hb H). reflexivity.
  - intros message ->. reflexivity.
Qed.

(** ** A resolved caller stays resolved *)

Lemma effect_first_user_by_email (db db' : Session) (e : string) (u : User.t) :
  effect db db' ->
  first_user_by_email e db = Some u -> first_user_by_email e db' = Some u.
Proof.
  intros Heff Hu. destruct Heff; try exact Hu.
  unfold first_user_by_email. simpl. apply find_app_some. exact Hu.
Qed.

(** X9.  Whatever request is served, a token that was accepted and
    resolved to the row [A] before it still resolves to the row [A]
    after it: no request takes a user's access away or hands it to
    another row. *)
Theorem authenticated_as_stable
    (pwd_ctx : CryptContext.t) (EmailStr : string -> option string)
    (req : Request) (Authorize : AuthJWT.t) (A : User.t) (db : Session) :
  authenticated_as Authorize A db ->
  authenticated_as Authorize A (snd (app pwd_ctx EmailStr req db)).
Proof.
  intros [Hjwt Hres]. split; [exact Hjwt|].
  apply (effect_first_user_by_email db); [apply app_effect | exact Hres].
Qed.

Lemma authenticated_as_stable_witness :
  authenticated_as (Fixture.bearer "a@x.com") Fixture.alice Fixture.db /\
  authenticated_as (Fixture.bearer "a@x.com") Fixture.alice
    (snd (app Fixture.pwd_ctx Fixture.EmailStr
            (POST_auth_register 130 "salt" "c@x.com" "topsecret") Fixture.db)).
Proof.
  assert (HA : authenticated_as (Fixture.bearer "a@x.com") Fixture.alice Fixture.db)
    by (split; reflexivity).
  split; [exact HA|].
  exact (authenticated_as_stable Fixture.pwd_ctx Fixture.EmailStr
           (POST_auth_register 130 "salt" "c@x.com" "topsecret") _ _ _ HA).
Defined.

(** ** Registering twice *)

(** X10.  After [register] succeeded, the email of the request resolves
    to the row [register] returned; any further [register] with the
    same email, whatever its password, salt, time and hashing context,
    raises the 400 and leaves the store as it was. *)
Theorem register_then_conflict
    (pwd_ctx : CryptContext.t) (utcnow : datetime) (salt : string)
    (user : UserCreate.t) (db : Session) (new : User.t) :
  fst (register pwd_ctx utcnow salt user db) = inr new ->
  first_user_by_email (UserCreate.email user)
    (snd (register pwd_ctx utcnow salt user db)) = Some new /\
  forall pwd_ctx' utcnow' salt' password',
    register pwd_ctx' utcnow' salt'
      {| UserCreate.email := UserCreate.email user;
         UserCreate.password := password' |}
      (snd (register pwd_ctx utcnow salt user db))
    = (inl (HTTPException 400 "User with this email already exists"),
       snd (register pwd_ctx utcnow salt user db)).
Proof.
  rewrite register_run.
  destruct (first_user_by_email (UserCreate.email user) db) eqn:Hnot;
    [discriminate|].
  destruct (CryptContext.hash pwd_ctx salt (UserCreate.password user))
    as [hashed|]; [|discriminate].
  cbv zeta. cbn [fst snd]. intros H. injection H as <-.
  match goal with |- first_user_by_email _ ?d = Some ?n /\ _ =>
    assert (Hres : first_user_by_email (UserCreate.email user) d = Some n)
  end.
  { unfold first_user_by_email in *. cbn [users].
    rewrite (find_app_none _ _ _ Hnot). simpl. rewrite String.eqb_refl.
    reflexivity. }
  split; [exact Hres|].
  intros pwd_ctx' utcnow' salt' password'. rewrite register_run.
  cbn [UserCreate.email]. rewrite Hres. reflexivity.
Qed.

Lemma register_then_conflict_witness :
  let carol := {| UserCreate.email := "c@x.com"; UserCreate.password := "topsecret" |} in
  let new := {| User.id := 3; User.email := "c@x.com";
                User.password_hash := "$topsecret"; User.created_at := 130 |} in
  fst (register Fixture.pwd_ctx 130 "salt" carol Fixture.db) = inr new /\
  fst (register Fixture.pwd_ctx 131 "pepper"
         {| UserCreate.email := "c@x.com"; UserCreate.password := "another1" |}
         (snd (register Fixture.pwd_ctx 130 "salt" carol Fixture.db)))
    = inl (HTTPException 400 "User with this email already exists").
Proof.
  intros carol new.
  assert (Hok : fst (register Fixture.pwd_ctx 130 "salt" carol Fixture.db) = inr new)
    by reflexivity.
  split; [exact Hok|].
  destruct (register_then_conflict Fixture.pwd_ctx 130 "salt" carol Fixture.db new Hok)
    as [_ Hagain].
  exact (f_equal fst (Hagain Fixture.pwd_ctx 131 "pepper" "another1")).
Defined.

Lemma register_then_login_witness :
  let user := {| UserCreate.email := "c@x.com"; UserCreate.password := "topsecret" |} in
  let new := {| User.id := 3; User.email := "c@x.com";
                User.password_hash := "$topsecret"; User.created_at := 130 |} in
  (forall salt p hashed,
     CryptContext.hash Fixture.pwd_ctx salt p = Some hashed ->
     CryptContext.verify Fixture.pwd_ctx p hashed = true) /\
  fst (register Fixture.pwd_ctx 130 "salt" user Fixture.db) = inr new /\
  fst (login Fixture.pwd_ctx user (Fixture.bearer "")
         (snd (register Fixture.pwd_ctx 130 "salt" user Fixture.db)))
    = inr {| TokenOut.access_token := "jwt:c@x.com"; TokenOut.token_type := "bearer" |}.
Proof.
  intros user new.
  assert (Hctx : forall salt p hashed,
            CryptContext.hash Fixture.pwd_ctx salt p = Some hashed ->
            CryptContext.verify Fixture.pwd_ctx p hashed = true).
  { intros salt p hashed. simpl.
    destruct (index 0 (String Ascii.zero "") p); [discriminate|].
    intros H. injection H as <-. apply String.eqb_refl. }
  assert (Hok : fst (register Fixture.pwd_ctx 130 "salt" user Fixture.db) = inr new)
    by reflexivity.
  split; [exact Hctx|]. split; [exact Hok|].
  exact (register_then_login Fixture.pwd_ctx Hctx 130 "salt" user
           (Fixture.bearer "") Fixture.db new Hok).
Defined.

Lemma reachable_store_inv_witness :
  let db1 := snd (app Fixture.pwd_ctx Fixture.EmailStr
                    (POST_auth_register 100 "salt" "a@x.com" "secret1") empty_db) in
  let db2 := snd (app Fixture.pwd_ctx Fixture.EmailStr
                    (POST_notes 110 "todo" "milk" (Fixture.bearer "a@x.com")) db1) in
  reachable Fixture.pwd_ctx Fixture.EmailStr db2 /\
  notes db2 = [Fixture.alice_note] /\
  store_inv db2.
Proof.
  intros db1 db2.
  assert (Hreach : reachable Fixture.pwd_ctx Fixture.EmailStr db2).
  { apply reachable_step. apply reachable_step. apply reachable_empty. }
  split; [exact Hreach|]. split; [reflexivity|].
  exact (reachable_store_inv Fixture.pwd_ctx Fixture.EmailStr db2 Hreach).
Defined.

(** ** What a request can change *)

Lemma login_pure
    (pwd_ctx : CryptContext.t) (user : UserCreate.t) (Authorize : AuthJWT.t)
    (db : Session) :
  snd (login pwd_ctx user Authorize db) = db.
Proof.
  unfold login, bind, query_user_by_email.
  destruct (first_user_by_email (UserCreate.email user) db) as [u|];
    [destruct (verify_password _ _ _)|]; reflexivity.
Qed.

Lemma get_notes_pure (Authorize : AuthJWT.t) (db : Session) :
  snd (get_notes Authorize db) = db.
Proof.
  unfold get_notes, jwt_required, bind, query_user_by_email.
  destruct (AuthJWT.jwt_required Authorize) as [[status_code message]|]; simpl;
    [reflexivity|].
  destruct (first_user_by_email _ db) as [u|]; reflexivity.
Qed.

Lemma get_note_pure (note_id : Z) (Authorize : AuthJWT.t) (db : Session) :
  snd (get_note note_id Authorize db) = db.
Proof.
  unfold get_note, jwt_required, bind, query_user_by_email, query_note.
  destruct (AuthJWT.jwt_required Authorize) as [[status_code message]|]; simpl;
    [reflexivity|].
  destruct (first_user_by_email _ db) as [u|]; simpl; [|reflexivity].
  destruct (sqlite_integer note_id); [|reflexivity].
  destruct (find _ (notes db)); reflexivity.
Qed.

Lemma delete_note_users (note_id : Z) (Authorize : AuthJWT.t) (db : Session) :
  users (snd (delete_note note_id Authorize db)) = users db.
Proof.
  unfold delete_note, jwt_required, bind, query_user_by_email, query_note.
  destruct (AuthJWT.jwt_required Authorize) as [[status_code message]|]; simpl;
    [reflexivity|].
  destruct (first_user_by_email _ db) as [u|]; simpl; [|reflexivity].
  destruct (sqlite_integer note_id); [|reflexivity].
  destruct (find _ (notes db)); reflexivity.
Qed.

Lemma delete_note_notes
    (note_id : Z) (Authorize : AuthJWT.t) (db : Session) (m : NoteDB.t) :
  In m (notes (snd (delete_note note_id Authorize db))) -> In m (notes db).
Proof.
  unfold delete_note, jwt_required, bind, query_user_by_email, query_note.
  destruct (AuthJWT.jwt_required Authorize) as [[status_code message]|]; simpl;
    [tauto|].
  destruct (first_user_by_email _ db) as [u|]; simpl; [|tauto].
  destruct (sqlite_integer note_id); [|tauto].
  destruct (find _ (notes db)); simpl; [|tauto].
  intros H. apply filter_In in H. tauto.
Qed.

(** X13.  POST /auth/login, GET /notes/ and GET /notes/{id} never change
    the store.  POST /auth/register never changes [notes]; POST /notes/
    and DELETE /notes/{id} never change [users].  No request changes a
    note in place: a row of [notes] after a request either was a row of
    [notes] before it, or has an id that no row had before it. *)
Theorem requests_change_only_their_table
    (pwd_ctx : CryptContext.t) (EmailStr : string -> option string)
    (db : Session) :
  (forall email password Authorize,
     snd (app pwd_ctx EmailStr (POST_auth_login email password Authorize) db) = db) /\
  (forall Authorize,
     snd (app pwd_ctx EmailStr (GET_notes Authorize) db) = db) /\
  (forall note_id Authorize,
     snd (app pwd_ctx EmailStr (GET_notes_id note_id Authorize) db) = db) /\
  (forall utcnow salt email password,
     notes (snd (app pwd_ctx EmailStr
                   (POST_auth_register utcnow salt email password) db)) = notes db) /\
  (forall utcnow title content Authorize,
     users (snd (app pwd_ctx EmailStr
                   (POST_notes utcnow title content Authorize) db)) = users db) /\
  (forall note_id Authorize,
     users (snd (app pwd_ctx EmailStr (DELETE_notes_id note_id Authorize) db))
     = users db) /\
  (forall req n,
     In n (notes (snd (app pwd_ctx EmailStr req db))) ->
     In n (notes db) \/ ~ In (NoteDB.id n) (map NoteDB.id (notes db))).
Proof.
  repeat split.
  - intros email password Authorize. unfold app.
    apply (snd_bind_pure (fun d => d = db)); [apply Depends_pure | reflexivity |].
    intros Authorize0 _.
    apply (snd_bind_pure (fun d => d = db));
      [apply parse_UserCreate_pure | reflexivity |].
    intros a _. rewrite snd_bind1. apply login_pure.
  - intros Authorize. unfold app.
    apply (snd_bind_pure (fun d => d = db)); [apply Depends_pure | reflexivity |].
    intros Authorize0 _. rewrite snd_bind1. apply get_notes_pure.
  - intros note_id Authorize. unfold app.
    apply (snd_bind_pure (fun d => d = db)); [apply Depends_pure | reflexivity |].
    intros Authorize0 _. rewrite snd_bind1. apply get_note_pure.
  - intros utcnow salt email password. unfold app.
    apply (snd_bind_pure (fun d => notes d = notes db));
      [apply parse_UserCreate_pure | reflexivity |].
    intros a _. rewrite snd_bind1, register_run.
    destruct (first_user_by_email (UserCreate.email a) db); [reflexivity|].
    destruct (CryptContext.hash pwd_ctx salt (UserCreate.password a)); reflexivity.
  - intros utcnow title content Authorize. unfold app.
    apply (snd_bind_pure (fun d => users d = users db));
      [apply Depends_pure | reflexivity |].
    intros Authorize0 _.
    apply (snd_bind_pure (fun d => users d = users db));
      [apply parse_NoteIn_pure | reflexivity |].
    intros a _. rewrite snd_bind1.
    destruct (create_note_cases utcnow a Authorize0 db)
      as [[e [-> _]]|[n [-> _]]]; reflexivity.
  - intros note_id Authorize. unfold app.
    apply (snd_bind_pure (fun d => users d = users db));
      [apply Depends_pure | reflexivity |].
    intros Authorize0 _. rewrite snd_bind1. apply delete_note_users.
  - intros req n Hn.
    pose proof (app_effect pwd_ctx EmailStr req db) as Heff.
    destruct Heff as [|new Hfresh Hid|m u Hu Hown Hid|f]; simpl in Hn.
    + left. exact Hn.
    + left. exact Hn.
    + apply in_app_iff in Hn. destruct Hn as [Hn|[<-|[]]]; [left; assumption|].
      right. rewrite Hid. apply next_rowid_fresh.
    + left. apply filter_In in Hn. tauto.
Qed.

(** ** Stored data went through the schemas *)

Lemma app_validated_store
    (pwd_ctx : CryptContext.t) (EmailStr : string -> option string)
    (req : Request) (db : Session) :
  validated_store EmailStr db ->
  validated_store EmailStr (snd (app pwd_ctx EmailStr req db)).
Proof.
  intros Hv. pose proof Hv as [Hu Hn].
  destruct req; unfold app.
  - apply (snd_bind_pure (validated_store EmailStr));
      [apply parse_UserCreate_pure | exact Hv |].
    intros a Ha. rewrite snd_bind1, register_run.
    destruct (first_user_by_email (UserCreate.email a) db); [exact Hv|].
    destruct (CryptContext.hash pwd_ctx salt (UserCreate.password a));
      [|exact Hv].
    cbv zeta. split; cbn [snd users notes]; [|exact Hn].
    intros u Hin. apply in_app_iff in Hin. destruct Hin as [Hin|[<-|[]]];
      [apply Hu; exact Hin|].
    exists email. cbn [User.email].
    revert Ha. unfold parse_UserCreate.
    destruct (EmailStr email) as [e|]; [|discriminate].
    destruct (constr_min_length 6 password); [|discriminate].
    simpl. intros H. injection H as <-. reflexivity.
  - apply (snd_bind_pure (validated_store EmailStr));
      [apply Depends_pure | exact Hv |].
    intros Authorize0 _.
    apply (snd_bind_pure (validated_store EmailStr));
      [apply parse_UserCreate_pure | exact Hv |].
    intros a _. rewrite snd_bind1, login_pure. exact Hv.
  - apply (snd_bind_pure (validated_store EmailStr));
      [apply Depends_pure | exact Hv |].
    intros Authorize0 _.
    apply (snd_bind_pure (validated_store EmailStr));
      [apply parse_NoteIn_pure | exact Hv |].
    intros a Ha. rewrite snd_bind1.
    destruct (create_note_cases utcnow a Authorize0 db)
      as [[e [-> _]]|[n [-> [Ht Hc]]]]; [exact Hv|].
    split; cbn [snd users notes]; [exact Hu|].
    intros m Hin. apply in_app_iff in Hin. destruct Hin as [Hin|[<-|[]]];
      [apply Hn; exact Hin|].
    rewrite Ht, Hc. revert Ha. unfold parse_NoteIn.
    destruct (constr_min_length 1 title) eqn:Et; simpl; [|discriminate].
    destruct (constr_min_length 1 content) eqn:Ec; simpl; [|discriminate].
    intros H. injection H as <-. simpl. split; assumption.
  - apply (snd_bind_pure (validated_store EmailStr));
      [apply Depends_pure | exact Hv |].
    intros Authorize0 _. rewrite snd_bind1, get_notes_pure. exact Hv.
  - apply (snd_bind_pure (validated_store EmailStr));
      [apply Depends_pure | exact Hv |].
    intros Authorize0 _. rewrite snd_bind1, get_note_pure. exact Hv.
  - apply (snd_bind_pure (validated_store EmailStr));
      [apply Depends_pure | exact Hv |].
    intros Authorize0 _. rewrite snd_bind1. split.
    + intros u Hin. rewrite delete_note_users in Hin. apply Hu. exact Hin.
    + intros m Hin. apply Hn. apply (delete_note_notes _ _ _ _ Hin).
Qed.

(** X14.  In every store that a sequence of requests leads to from the
    empty schema, the email of every user is a value [EmailStr]
    returned for some input, and no note has an empty title or an empty
    content. *)
Theorem reachable_rows_validated
    (pwd_ctx : CryptContext.t) (EmailStr : string -> option string)
    (db : Session) :
  reachable pwd_ctx EmailStr db ->
  (forall u, In u (users db) -> exists raw, EmailStr raw = Some (User.email u)) /\
  (forall n, In n (notes db) -> NoteDB.title n <> "" /\ NoteDB.content n <> "").
Proof.
  intros Hreach.
  assert (Hv : validated_store EmailStr db).
  { induction Hreach as [|req db Hreach IH].
    - split; intros x [].
    - apply app_validated_store. exact IH. }
  destruct Hv as [Hu Hn]. split; [exact Hu|].
  intros n Hin. destruct (Hn n Hin) as [Ht Hc].
  split; apply constr_min_length_1_nonempty; assumption.
Qed.

Lemma reachable_rows_validated_witness :
  let db1 := snd (app Fixture.pwd_ctx Fixture.EmailStr
                    (POST_auth_register 100 "salt" "a@x.com" "secret1") empty_db) in
  let db2 := snd (app Fixture.pwd_ctx Fixture.EmailStr
                    (POST_notes 110 "todo" "milk" (Fixture.bearer "a@x.com")) db1) in
  let db3 := snd (app Fixture.pwd_ctx Fixture.EmailStr
                    (POST_notes 111 "" "eggs" (Fixture.bearer "a@x.com")) db2) in
  reachable Fixture.pwd_ctx Fixture.EmailStr db3 /\
  notes db3 = [Fixture.alice_note] /\
  forall n, In n (notes db3) -> NoteDB.title n <> "" /\ NoteDB.content n <> "".
Proof.
  intros db1 db2 db3.
  assert (Hreach : reachable Fixture.pwd_ctx Fixture.EmailStr db3).
  { apply reachable_step. apply reachable_step. apply reachable_step.
    apply reachable_empty. }
  split; [exact Hreach|]. split; [reflexivity|].
  exact (proj2 (reachable_rows_validated Fixture.pwd_ctx Fixture.EmailStr db3 Hreach)).
Defined.

(** ** Resolution under the unique constraint *)

(** X15.  On a store whose emails are pairwise distinct, an accepted
    token whose subject is the email of a row of [users] resolves to
    that row and to no other. *)
Theorem token_resolves_to_its_row
    (Authorize : AuthJWT.t) (u : User.t) (db : Session) :
  emails_unique db ->
  In u (users db) ->
  AuthJWT.jwt_required Authorize = None ->
  AuthJWT.get_jwt_subject Authorize = User.email u ->
  authenticated_as Authorize u db /\
  forall v, authenticated_as Authorize v db -> v = u.
Proof.
  intros Huniq Hin Hjwt Hsub.
  assert (Hres : first_user_by_email (AuthJWT.get_jwt_subject Authorize) db = Some u)
    by (rewrite Hsub; apply first_user_by_email_unique; assumption).
  split; [split; assumption|].
  intros v [_ Hv]. congruence.
Qed.

Lemma token_resolves_to_its_row_witness :
  emails_unique Fixture.db /\
  In Fixture.bob (users Fixture.db) /\
  authenticated_as (Fixture.bearer "b@x.com") Fixture.bob Fixture.db.
Proof.
  assert (Huniq : emails_unique Fixture.db).
  { unfold emails_unique. simpl.
    repeat constructor; simpl; intros H; repeat destruct H as [H|H];
      try discriminate H; exact H. }
  assert (Hin : In Fixture.bob (users Fixture.db)) by (simpl; tauto).
  split; [exact Huniq|]. split; [exact Hin|].
  exact (proj1 (token_resolves_to_its_row (Fixture.bearer "b@x.com") Fixture.bob
                  Fixture.db Huniq Hin eq_refl eq_refl)).
Defined.

Lemma post_notes_422_iff_empty_field_witness :
  (len "" = 0%nat \/ len "eggs" = 0%nat) /\
  app Fixture.pwd_ctx Fixture.EmailStr
      (POST_notes 111 "" "eggs" (Fixture.bearer "a@x.com")) Fixture.db
    = (inl RequestValidationError, Fixture.db) /\
  app Fixture.pwd_ctx Fixture.EmailStr
      (POST_notes 111 "" "eggs" (InvalidHeaderError "Bad Authorization header"))
      Fixture.db
    = (inl (AuthJWTException 422 "Bad Authorization header"), Fixture.db).
Proof.
  assert (Hempty : len "" = 0%nat \/ len "eggs" = 0%nat) by (left; reflexivity).
  split; [exact Hempty|]. split.
  - exact (proj1 (proj2 (post_notes_422_iff_empty_field Fixture.pwd_ctx
                           Fixture.EmailStr 111 "" "eggs"
                           (Built (Fixture.bearer "a@x.com")) Fixture.db))
             _ eq_refl Hempty).
  - exact (proj2 (proj2 (post_notes_422_iff_empty_field Fixture.pwd_ctx
                           Fixture.EmailStr 111 "" "eggs"
                           (InvalidHeaderError "Bad Authorization header")
                           Fixture.db))
             _ eq_refl).
Defined.

(** ** The token service of the specification *)

(** C8.  For a token service whose [parse] reads back what [serialize]
    wrote and whose configured expiry is positive: for every subject
    [s], verifying the token issued for [s] gives [s] at the time of
    issuance and at every time before the expiry, and fails with
    [Unauthorized] at the expiry and at every time after it.  At any
    time, verification fails with [Unauthorized] for a token that does
    not parse, and for a token whose signature is not the signature of
    its subject and expiry under the secret key, as when the subject or
    the expiry of an issued token was changed and its signature kept. *)
Theorem token_round_trip_and_failures
    {token : Type} (P : TokenService.Primitive token) (secret : string)
    (lifetime : Z) :
  (forall s e g,
     TokenService.parse P (TokenService.serialize P s e g) = Some (s, e, g)) ->
  0 < lifetime ->
  forall (now : Z) (s : string),
    TokenService.verify P secret now (TokenService.issue P secret lifetime now s)
      = inr s /\
    (forall t, now <= t < now + lifetime ->
       TokenService.verify P secret t (TokenService.issue P secret lifetime now s)
         = inr s) /\
    (forall t, now + lifetime <= t ->
       TokenService.verify P secret t (TokenService.issue P secret lifetime now s)
         = inl TokenService.Unauthorized) /\
    (forall t tok,
       TokenService.parse P tok = None ->
       TokenService.verify P secret t tok = inl TokenService.Unauthorized) /\
    (forall t tok s' e g,
       TokenService.parse P tok = Some (s', e, g) ->
       g <> TokenService.sign P secret s' e ->
       TokenService.verify P secret t tok = inl TokenService.Unauthorized) /\
    (forall t s' e,
       TokenService.sign P secret s' e
         <> TokenService.sign P secret s (now + lifetime) ->
       TokenService.verify P secret t
         (TokenService.serialize P s' e
            (TokenService.sign P secret s (now + lifetime)))
         = inl TokenService.Unauthorized).
Proof.
  intros Hparse Hlife now s.
  assert (Hwindow : forall t, now <= t < now + lifetime ->
            TokenService.verify P secret t
              (TokenService.issue P secret lifetime now s) = inr s).
  { intros t Ht. unfold TokenService.verify, TokenService.issue. cbv zeta.
    rewrite Hparse, String.eqb_refl. simpl.
    destruct (Z.leb_spec (now + lifetime) t) as [H|H]; [lia | reflexivity]. }
  assert (Hbad : forall t tok s' e g,
            TokenService.parse P tok = Some (s', e, g) ->
            g <> TokenService.sign P secret s' e ->
            TokenService.verify P secret t tok = inl TokenService.Unauthorized).
  { intros t tok s' e g Htok Hsig. unfold TokenService.verify. rewrite Htok.
    apply String.eqb_neq in Hsig. rewrite Hsig. reflexivity. }
  split; [apply Hwindow; lia|]. split; [exact Hwindow|]. split; [|split; [|split]].
  - intros t Ht. unfold TokenService.verify, TokenService.issue. cbv zeta.
    rewrite Hparse, String.eqb_refl. simpl.
    destruct (Z.leb_spec (now + lifetime) t) as [H|H]; [reflexivity | lia].
  - intros t tok Htok. unfold TokenService.verify. rewrite Htok. reflexivity.
  - exact Hbad.
  - intros t s' e Hsig. apply (Hbad t _ s' e _ (Hparse _ _ _)).
    intros E. apply Hsig. symmetry. exact E.
Qed.

Lemma token_round_trip_and_failures_witness :
  (forall s e g,
     TokenService.parse Fixture.tokens (TokenService.serialize Fixture.tokens s e g)
     = Some (s, e, g)) /\
  0 < 900 /\
  TokenService.verify Fixture.tokens "key" 100
    (TokenService.issue Fixture.tokens "key" 900 100 "a@x.com") = inr "a@x.com" /\
  TokenService.verify Fixture.tokens "key" 1000
    (TokenService.issue Fixture.tokens "key" 900 100 "a@x.com")
    = inl TokenService.Unauthorized /\
  TokenService.verify Fixture.tokens "key" 100
    ("b@x.com", 1000, TokenService.sign Fixture.tokens "key" "a@x.com" 1000)
    = inl TokenService.Unauthorized.
Proof.
  assert (Hparse : forall s e g,
            TokenService.parse Fixture.tokens
              (TokenService.serialize Fixture.tokens s e g) = Some (s, e, g))
    by reflexivity.
  assert (Hlife : 0 < 900) by lia.
  split; [exact Hparse|]. split; [exact Hlife|].
  destruct (token_round_trip_and_failures Fixture.tokens "key" 900 Hparse Hlife
              100 "a@x.com") as (Hnow & _ & Hexp & _ & _ & Htamper).
  split; [exact Hnow|]. split.
  - apply Hexp. lia.
  - apply (Htamper 100 "b@x.com" 1000). vm_compute. discriminate.
Defined.
